(** * gtktetris: the game logic of [gtktetris.c]

    A shallow embedding of the game state and of the callbacks that GTK
    invokes ([start_new_game], [toggle_pause], [key_press], [game_loop]),
    with the helpers they call ([new_piece], [can_move], [land_piece],
    [clear_lines]).  The C program keeps one global [GameState]; here every
    function takes the state and returns the new one.  Calls into GLib and
    GTK are recorded, in order, in the list of [Call]s a function returns;
    the values the outside world hands back (the random number of
    [secure_rand], the source id of [g_timeout_add]) are arguments.  The
    two draw callbacks ([draw_preview], [draw_callback]) return the list of
    cairo calls they make.  The timeout sources of the GLib main loop, which
    the program attaches and removes, are followed by their ids ([Loop]). *)

From Equations Require Import Equations.
From Equations.Prop Require Import Logic.
From stdpp Require Import base list strings pretty.
From Stdlib Require Import ZArith QArith Lia.

Local Open Scope Z_scope.

(** ** The C type [int] *)

(** [int] is 32 bits wide.  The value of an [int] expression is the
    mathematical result brought back into [INT_MIN .. INT_MAX] by two's
    complement wrap-around. *)

Definition INT_MAX : Z := 2147483647.
Definition INT_MIN : Z := -2147483648.

Definition wrap (z : Z) : Z := (z + 2 ^ 31) mod 2 ^ 32 - 2 ^ 31.

Definition int_add (a b : Z) : Z := wrap (a + b).
Definition int_sub (a b : Z) : Z := wrap (a - b).
Definition int_mul (a b : Z) : Z := wrap (a * b).
Definition int_neg (a : Z) : Z := wrap (- a).
(** C division truncates toward zero.  ([Z.quot a 0] is [0]; the program
    only divides by a level of at least 2.) *)
Definition int_div (a b : Z) : Z := wrap (Z.quot a b).

Definition is_int (z : Z) : Prop := INT_MIN <= z <= INT_MAX.

Arguments wrap _ : simpl never.
Arguments int_add _ _ : simpl never.
Arguments int_sub _ _ : simpl never.
Arguments int_mul _ _ : simpl never.
Arguments int_neg _ : simpl never.
Arguments int_div _ _ : simpl never.

(** ** Constants *)

Definition BOARD_WIDTH : Z := 10.
Definition BOARD_HEIGHT : Z := 20.
Definition LEVEL_THRESHOLD : Z := 5000.
Definition MAX_LEVEL : Z := 10.

(** ** Tetrominoes *)

(** [int shape[4][2]] is a list of four (x, y) offsets, [double color[3]]
    a triple of rationals (the constants used are exact in binary). *)
Record Tetromino := mkTetromino {
  shape : list (Z * Z);
  color : Q * Q * Q
}.

Definition tetrominoes : list Tetromino :=
  [ mkTetromino [(0,0); (0,1); (1,0); (1,1)] (1, 1, 0)%Q;        (* Square *)
    mkTetromino [(0,0); (0,1); (0,2); (0,3)] (0, 1, 1)%Q;        (* Line *)
    mkTetromino [(0,0); (0,1); (1,1); (1,2)] (1, 0, 0)%Q;        (* Z *)
    mkTetromino [(0,1); (0,2); (1,0); (1,1)] (0, 1, 0)%Q;        (* S *)
    mkTetromino [(0,0); (0,1); (0,2); (1,1)] (1, 0, 1)%Q;        (* T *)
    mkTetromino [(0,0); (1,0); (2,0); (2,1)] (1, 1 # 2, 0)%Q;    (* L *)
    mkTetromino [(0,1); (1,1); (2,0); (2,1)] (0, 0, 1)%Q ].      (* J *)

(** [tetrominoes[t].shape].  The program indexes the table only with a
    type in [0 .. 6]; outside that range the C program reads out of bounds,
    and this function returns the empty list. *)
Definition shape_of (t : Z) : list (Z * Z) :=
  if (0 <=? t) then
    match tetrominoes !! Z.to_nat t with
    | Some p => shape p
    | None => []
    end
  else [].

(** ** The game state *)

Record GameState := mkGame {
  board : list (list Z);          (* int board[BOARD_HEIGHT][BOARD_WIDTH] *)
  board_colors : list (list Z);   (* int board_colors[..][..], same shape *)
  current_x : Z;
  current_y : Z;
  current_piece : list (Z * Z);   (* int current_piece[4][2] *)
  current_type : Z;
  next_type : Z;
  score : Z;
  level : Z;
  game_speed : Z;
  score_text : string;
  game_over : bool;
  paused : bool;
  timeout_id : Z
}.

(** Field updates, one per assignment form used by the program. *)

Definition set_boards (b c : list (list Z)) (g : GameState) : GameState :=
  mkGame b c (current_x g) (current_y g) (current_piece g) (current_type g)
    (next_type g) (score g) (level g) (game_speed g) (score_text g)
    (game_over g) (paused g) (timeout_id g).

Definition set_current_x (v : Z) (g : GameState) : GameState :=
  mkGame (board g) (board_colors g) v (current_y g) (current_piece g)
    (current_type g) (next_type g) (score g) (level g) (game_speed g)
    (score_text g) (game_over g) (paused g) (timeout_id g).

Definition set_current_y (v : Z) (g : GameState) : GameState :=
  mkGame (board g) (board_colors g) (current_x g) v (current_piece g)
    (current_type g) (next_type g) (score g) (level g) (game_speed g)
    (score_text g) (game_over g) (paused g) (timeout_id g).

Definition set_current_piece (p : list (Z * Z)) (g : GameState) : GameState :=
  mkGame (board g) (board_colors g) (current_x g) (current_y g) p
    (current_type g) (next_type g) (score g) (level g) (game_speed g)
    (score_text g) (game_over g) (paused g) (timeout_id g).

Definition set_current_type (v : Z) (g : GameState) : GameState :=
  mkGame (board g) (board_colors g) (current_x g) (current_y g)
    (current_piece g) v (next_type g) (score g) (level g) (game_speed g)
    (score_text g) (game_over g) (paused g) (timeout_id g).

Definition set_next_type (v : Z) (g : GameState) : GameState :=
  mkGame (board g) (board_colors g) (current_x g) (current_y g)
    (current_piece g) (current_type g) v (score g) (level g) (game_speed g)
    (score_text g) (game_over g) (paused g) (timeout_id g).

Definition set_score (v : Z) (g : GameState) : GameState :=
  mkGame (board g) (board_colors g) (current_x g) (current_y g)
    (current_piece g) (current_type g) (next_type g) v (level g)
    (game_speed g) (score_text g) (game_over g) (paused g) (timeout_id g).

Definition set_level (v : Z) (g : GameState) : GameState :=
  mkGame (board g) (board_colors g) (current_x g) (current_y g)
    (current_piece g) (current_type g) (next_type g) (score g) v
    (game_speed g) (score_text g) (game_over g) (paused g) (timeout_id g).

Definition set_game_speed (v : Z) (g : GameState) : GameState :=
  mkGame (board g) (board_colors g) (current_x g) (current_y g)
    (current_piece g) (current_type g) (next_type g) (score g) (level g) v
    (score_text g) (game_over g) (paused g) (timeout_id g).

Definition set_score_text (s : string) (g : GameState) : GameState :=
  mkGame (board g) (board_colors g) (current_x g) (current_y g)
    (current_piece g) (current_type g) (next_type g) (score g) (level g)
    (game_speed g) s (game_over g) (paused g) (timeout_id g).

Definition set_game_over (v : bool) (g : GameState) : GameState :=
  mkGame (board g) (board_colors g) (current_x g) (current_y g)
    (current_piece g) (current_type g) (next_type g) (score g) (level g)
    (game_speed g) (score_text g) v (paused g) (timeout_id g).

Definition set_paused (v : bool) (g : GameState) : GameState :=
  mkGame (board g) (board_colors g) (current_x g) (current_y g)
    (current_piece g) (current_type g) (next_type g) (score g) (level g)
    (game_speed g) (score_text g) (game_over g) v (timeout_id g).

Definition set_timeout_id (v : Z) (g : GameState) : GameState :=
  mkGame (board g) (board_colors g) (current_x g) (current_y g)
    (current_piece g) (current_type g) (next_type g) (score g) (level g)
    (game_speed g) (score_text g) (game_over g) (paused g) v.

(** ** Calls into GLib and GTK *)

Inductive Widget :=
  drawing_area | score_label | new_game_button | pause_button | preview_area.

Inductive Call :=
| g_source_remove (id : Z)
| g_timeout_add (interval : Z)
| gtk_label_set_text (w : Widget) (s : string)
| gtk_button_set_label (w : Widget) (s : string)
| gtk_widget_queue_draw (w : Widget).

(** What a function hands back: its C return value, the game state it
    leaves, and the library calls it made. *)
Record Out (A : Type) := mkOut {
  ret : A;
  st : GameState;
  calls : list Call
}.
Arguments mkOut {A} _ _ _.
Arguments ret {A} _.
Arguments st {A} _.
Arguments calls {A} _.

(** The key of a [GdkEventKey], up to the cases [key_press] tells apart. *)
Inductive Key := GDK_KEY_p | GDK_KEY_Left | GDK_KEY_Right | GDK_KEY_Down
               | GDK_KEY_Up | GDK_KEY_other.

(** ** Board access *)

Definition zero_row : list Z := replicate (Z.to_nat BOARD_WIDTH) 0.

Definition row_at (b : list (list Z)) (y : Z) : list Z :=
  default [] (b !! Z.to_nat y).

(** [b[y][x]].  Every access the program makes is guarded to be inside the
    array, so what is read elsewhere does not matter: here an index past the
    end reads [0] and a negative index counts as index 0. *)
Definition cell (b : list (list Z)) (y x : Z) : Z :=
  default 0 (row_at b y !! Z.to_nat x).

(** [b[y][x] = v] *)
Definition set_cell (b : list (list Z)) (y x v : Z) : list (list Z) :=
  <[Z.to_nat y := <[Z.to_nat x := v]> (row_at b y)]> b.

(** The inner loop of [clear_lines]: row [y] is full when none of its
    [BOARD_WIDTH] cells is [0]. *)
Definition row_is_full (r : list Z) : bool :=
  forallb (fun x => negb (default 0 (r !! Z.to_nat x) =? 0))
          (seqZ 0 BOARD_WIDTH).

Definition row_full (b : list (list Z)) (y : Z) : bool :=
  row_is_full (row_at b y).

(** [for (yy = n; yy > 0; yy--) memcpy(b[yy], b[yy-1], sizeof(b[yy]))] *)
Fixpoint shift_rows (n : nat) (b : list (list Z)) : list (list Z) :=
  match n with
  | O => b
  | S m => shift_rows m (<[S m := default [] (b !! m)]> b)
  end.

(** The rows above [y] move down by one and row 0 is zeroed. *)
Definition drop_row (y : Z) (b : list (list Z)) : list (list Z) :=
  <[O := zero_row]> (shift_rows (Z.to_nat y) b).

(** Number of full rows of a board: the scan of [clear_lines] ends because
    each removal lowers it. *)
Definition full_rows (b : list (list Z)) : nat :=
  length (filter (fun r => row_is_full r = true) b).

Lemma shift_rows_spec (n : nat) (b : list (list Z)) :
  (n < length b)%nat ->
  shift_rows n b = take 1 b ++ take n b ++ drop (S n) b.
Proof.
  revert b. induction n as [|n IH]; intros b Hn.
  - destruct b; simpl in *; [lia|]. by rewrite drop_0.
  - simpl. rewrite IH by (rewrite length_insert; lia).
    destruct (lookup_lt_is_Some_2 b n ltac:(lia)) as [r Hr]. rewrite Hr. simpl.
    rewrite take_insert_ge by lia.
    rewrite (take_insert_ge _ n) by lia.
    rewrite drop_insert_ge by lia.
    replace (S n - S n)%nat with O by lia.
    rewrite (take_S_r b n r Hr).
    destruct (lookup_lt_is_Some_2 b (S n) ltac:(lia)) as [r' Hr'].
    rewrite (drop_S b r' (S n) Hr'). simpl.
    by rewrite <- app_assoc.
Qed.

Lemma drop_row_spec (y : Z) (b : list (list Z)) :
  (Z.to_nat y < length b)%nat ->
  drop_row y b = zero_row :: take (Z.to_nat y) b ++ drop (S (Z.to_nat y)) b.
Proof.
  intros Hy. unfold drop_row. rewrite shift_rows_spec by done.
  destruct b; simpl in *; [lia|]. done.
Qed.

Lemma full_rows_drop_row (y : Z) (b : list (list Z)) :
  row_full b y = true ->
  (full_rows (drop_row y b) < full_rows b)%nat.
Proof.
  intros Hf. unfold row_full, row_at in Hf.
  destruct (b !! Z.to_nat y) as [r|] eqn:Hr; simpl in Hf; [|discriminate].
  rewrite drop_row_spec by (by eapply lookup_lt_Some).
  rewrite <- (take_drop_middle b _ r Hr) at 3.
  unfold full_rows. rewrite filter_cons_False by done.
  rewrite !filter_app, filter_cons_True by done.
  rewrite !length_app. simpl. lia.
Qed.

(** The outer loop of [clear_lines],
    [for (y = ...; y >= 0; y--) { if (full) { lines++; ...; y++; } }]:
    after a removal the same [y] is examined again. *)
Equations? clear_scan (y lines : Z) (b c : list (list Z))
  : Z * list (list Z) * list (list Z)
  by wf (full_rows b + Z.to_nat (y + 1))%nat lt :=
  clear_scan y lines b c with inspect (0 <=? y) := {
    | exist _ false Hy => (lines, b, c)
    | exist _ true Hy with inspect (row_full b y) := {
      | exist _ true Hfull =>
          clear_scan y (int_add lines 1) (drop_row y b) (drop_row y c)
      | exist _ false Hfull => clear_scan (y - 1) lines b c } }.
Proof.
  - pose proof (full_rows_drop_row y b Hfull). lia.
  - lia.
Qed.

(** ** The program's functions *)

(** [snprintf(game.score_text, SCORE_TEXT_SIZE, "Score: %d  Level: %d", ...)]:
    at most [SCORE_TEXT_SIZE - 1] characters are stored. *)
Definition SCORE_TEXT_SIZE : nat := 50.

Definition score_line (s l : Z) : string :=
  String.substring 0 (SCORE_TEXT_SIZE - 1)
    ("Score: " +:+ pretty s +:+ "  Level: " +:+ pretty l).

(** [memset(&game, 0, sizeof(GameState))] *)
Definition zero_game : GameState :=
  mkGame (replicate (Z.to_nat BOARD_HEIGHT) zero_row)
         (replicate (Z.to_nat BOARD_HEIGHT) zero_row)
         0 0 (replicate 4 (0, 0)) 0 0 0 0 0 "" false false 0.

Definition init_game_state : GameState :=
  set_level 1 (set_game_speed 500 zero_game).

Definition toggle_pause (g : GameState) : Out unit :=
  if game_over g then mkOut tt g []
  else
    let g1 := set_paused (negb (paused g)) g in
    mkOut tt g1
      [gtk_button_set_label pause_button
         (if paused g1 then "Resume" else "Pause")].

(** [rnd] is the value of [secure_rand(7)]. *)
Definition new_piece (rnd : Z) (g : GameState) : Out unit :=
  let g1 := set_current_type (next_type g) g in
  let g2 := set_next_type rnd g1 in
  let g3 := set_current_x (int_sub (int_div BOARD_WIDTH 2) 2) g2 in
  let g4 := set_current_y 0 g3 in
  let g5 := set_current_piece (shape_of (current_type g4)) g4 in
  mkOut tt g5 [gtk_widget_queue_draw preview_area].

(** The body of the loop of [can_move], for the offset [o] of one block:
    [true] when the loop goes on, [false] when it returns [false]. *)
Definition block_fits (g : GameState) (dx dy : Z) (o : Z * Z) : bool :=
  let new_x := int_add (int_add (current_x g) (fst o)) dx in
  let new_y := int_add (int_add (current_y g) (snd o)) dy in
  negb ((new_x <? 0) || (new_x >=? BOARD_WIDTH) || (new_y >=? BOARD_HEIGHT)
        || ((new_y >=? 0) && negb (cell (board g) new_y new_x =? 0))).

Definition can_move (g : GameState) (dx dy : Z) : bool :=
  forallb (block_fits g dx dy) (current_piece g).

(** The body of the loop of [land_piece] on the two arrays. *)
Definition land_block (g : GameState) (bc : list (list Z) * list (list Z))
    (o : Z * Z) : list (list Z) * list (list Z) :=
  let x := int_add (current_x g) (fst o) in
  let y := int_add (current_y g) (snd o) in
  if (y >=? 0) && (x >=? 0) && (x <? BOARD_WIDTH) && (y <? BOARD_HEIGHT)
  then (set_cell (fst bc) y x 1,
        set_cell (snd bc) y x (int_add (current_type g) 1))
  else bc.

Definition land_piece (g : GameState) : GameState :=
  let bc := fold_left (land_block g) (current_piece g)
                      (board g, board_colors g) in
  set_boards (fst bc) (snd bc) g.

(** [tid] is the value of [g_timeout_add], should it be called. *)
Definition clear_lines (tid : Z) (g : GameState) : Out unit :=
  let '(lines, b, c) :=
    clear_scan (BOARD_HEIGHT - 1) 0 (board g) (board_colors g) in
  let g1 := set_boards b c g in
  let sum := int_add (score g1) (int_mul (int_mul lines 100) (level g1)) in
  let g2 := set_score (if sum >? INT_MAX then INT_MAX else sum) g1 in
  let g3 := set_score_text (score_line (score g2) (level g2)) g2 in
  let shown := [gtk_label_set_text score_label (score_text g3)] in
  if (score g3 >=? int_mul (level g3) LEVEL_THRESHOLD)
     && (level g3 <? MAX_LEVEL)
  then
    let g4 := set_level (int_add (level g3) 1) g3 in
    let g5 := set_game_speed (int_div 500 (level g4)) g4 in
    let g6 := set_timeout_id tid g5 in
    mkOut tt g6
      (shown ++ [g_source_remove (timeout_id g5);
                 g_timeout_add (game_speed g5)])
  else mkOut tt g3 shown.

(** The timer callback.  Its return value tells GLib whether to keep the
    timer ([true]) or to remove it ([false]). *)
Definition game_loop (rnd tid : Z) (g : GameState) : Out bool :=
  if paused g || game_over g then mkOut true g []
  else if can_move g 0 1 then
    mkOut true (set_current_y (int_add (current_y g) 1) g)
      [gtk_widget_queue_draw drawing_area]
  else
    let g1 := land_piece g in
    let o2 := clear_lines tid g1 in
    let o3 := new_piece rnd (st o2) in
    if negb (can_move (st o3) 0 0) then
      mkOut false (set_game_over true (st o3))
        (calls o2 ++ calls o3 ++ [gtk_widget_queue_draw drawing_area])
    else
      mkOut true (st o3)
        (calls o2 ++ calls o3 ++ [gtk_widget_queue_draw drawing_area]).

(** The rotation of [key_press]: each offset (x, y) becomes (y, -x). *)
Definition rotate_block (o : Z * Z) : Z * Z := (snd o, int_neg (fst o)).

(** The [switch] of [key_press]. *)
Definition key_action (k : Key) (g : GameState) : GameState :=
  match k with
  | GDK_KEY_Left =>
      if can_move g (-1) 0 then set_current_x (int_sub (current_x g) 1) g
      else g
  | GDK_KEY_Right =>
      if can_move g 1 0 then set_current_x (int_add (current_x g) 1) g
      else g
  | GDK_KEY_Down =>
      if can_move g 0 1 then set_current_y (int_add (current_y g) 1) g
      else g
  | GDK_KEY_Up =>
      let temp_piece := current_piece g in
      let g1 := set_current_piece (map rotate_block (current_piece g)) g in
      if negb (can_move g1 0 0) then set_current_piece temp_piece g1
      else g1
  | _ => g
  end.

(** [event] is [None] for a null pointer. *)
Definition key_press (event : option Key) (g : GameState) : Out bool :=
  match event with
  | None => mkOut true g []
  | Some k =>
      if game_over g then mkOut true g []
      else
        let o1 := match k with
                  | GDK_KEY_p => toggle_pause g
                  | _ => mkOut tt g []
                  end in
        if paused (st o1) then mkOut true (st o1) (calls o1)
        else mkOut true (key_action k (st o1))
               (calls o1 ++ [gtk_widget_queue_draw drawing_area])
  end.

Definition start_new_game (rnd tid : Z) (g : GameState) : Out unit :=
  let g1 := init_game_state in
  let removed :=
    if timeout_id g1 =? 0 then [] else [g_source_remove (timeout_id g1)] in
  let g2 := set_timeout_id tid g1 in
  let g3 := set_score_text (score_line (score g2) (level g2)) g2 in
  let o4 := new_piece rnd g3 in
  mkOut tt (st o4)
    (removed ++ [g_timeout_add (game_speed g1);
                 gtk_label_set_text score_label (score_text g3);
                 gtk_button_set_label pause_button "Pause"]
     ++ calls o4 ++ [gtk_widget_queue_draw drawing_area]).

(** The game part of [main]: [rnd1] and [rnd2] are the two values of
    [secure_rand(7)], [tid] the value of [g_timeout_add]. *)
Definition main_setup (rnd1 rnd2 tid : Z) : Out unit :=
  let g1 := set_next_type rnd1 init_game_state in
  let o2 := new_piece rnd2 g1 in
  mkOut tt (set_timeout_id tid (st o2))
    (calls o2 ++ [g_timeout_add (game_speed (st o2))]).

(** ** Drawing *)

(** The two draw callbacks read the game state and call cairo.  They
    compute with [int] only; what they pass as [double] is either such an
    [int] or a constant, kept here as the rational its literal denotes. *)

Definition BLOCK_SIZE : Z := 30.
Definition PREVIEW_SIZE : Z := 5.

Inductive FontSlant := CAIRO_FONT_SLANT_NORMAL.
Inductive FontWeight := CAIRO_FONT_WEIGHT_BOLD.

Inductive Cairo :=
| cairo_set_source_rgb (red green blue : Q)
| cairo_set_source_rgba (red green blue alpha : Q)
| cairo_paint
| cairo_rectangle (x y width height : Z)
| cairo_fill
| cairo_stroke
| cairo_select_font_face (family : string) (slant : FontSlant)
    (weight : FontWeight)
| cairo_set_font_size (size : Z)
| cairo_move_to (x y : Z)
| cairo_show_text (text : string).

(** [tetrominoes[t].color].  As for [shape_of], an index outside
    [0 .. 6] is an out-of-bounds read in C; here it gives black. *)
Definition color_of (t : Z) : Q * Q * Q :=
  if (0 <=? t) then
    match tetrominoes !! Z.to_nat t with
    | Some p => color p
    | None => (0, 0, 0)%Q
    end
  else (0, 0, 0)%Q.

(** [cairo_set_source_rgb(cr, color[0], color[1], color[2])] *)
Definition set_color (c : Q * Q * Q) : Cairo :=
  cairo_set_source_rgb (fst (fst c)) (snd (fst c)) (snd c).

(** The body of the loop of [draw_preview] for one offset. *)
Definition preview_block (o : Z * Z) : list Cairo :=
  let x := int_add (fst o) 1 in
  let y := int_add (snd o) 1 in
  [ cairo_rectangle (int_div (int_mul x BLOCK_SIZE) 2)
      (int_div (int_mul y BLOCK_SIZE) 2)
      (int_sub (int_div BLOCK_SIZE 2) 1) (int_sub (int_div BLOCK_SIZE 2) 1);
    cairo_fill ].

Definition draw_preview (g : GameState) : bool * list Cairo :=
  let side := int_sub (int_div (int_mul PREVIEW_SIZE BLOCK_SIZE) 2) 10 in
  (true,
   [ cairo_set_source_rgb (2 # 10) (2 # 10) (2 # 10);
     cairo_paint;
     cairo_set_source_rgb (5 # 10) (5 # 10) (5 # 10);
     cairo_rectangle 5 5 side side;
     cairo_stroke;
     set_color (color_of (next_type g)) ]
   ++ flat_map preview_block (shape_of (next_type g))).

(** The body of the board loops of [draw_callback] for the cell (x, y). *)
Definition draw_cell (g : GameState) (y x : Z) : list Cairo :=
  if negb (cell (board g) y x =? 0) then
    let color_idx := int_sub (cell (board_colors g) y x) 1 in
    if (color_idx >=? 0) && (color_idx <? 7) then
      [ set_color (color_of color_idx);
        cairo_rectangle (int_mul x BLOCK_SIZE) (int_mul y BLOCK_SIZE)
          (int_sub BLOCK_SIZE 1) (int_sub BLOCK_SIZE 1);
        cairo_fill ]
    else []
  else [].

Definition draw_board (g : GameState) : list Cairo :=
  flat_map (fun y => flat_map (fun x => draw_cell g y x) (seqZ 0 BOARD_WIDTH))
           (seqZ 0 BOARD_HEIGHT).

(** The body of the loop over the blocks of the current piece. *)
Definition draw_block (g : GameState) (o : Z * Z) : list Cairo :=
  let x := int_add (current_x g) (fst o) in
  let y := int_add (current_y g) (snd o) in
  if (y >=? 0) && (x >=? 0) && (x <? BOARD_WIDTH) then
    [ cairo_rectangle (int_mul x BLOCK_SIZE) (int_mul y BLOCK_SIZE)
        (int_sub BLOCK_SIZE 1) (int_sub BLOCK_SIZE 1);
      cairo_fill ]
  else [].

(** The game-over screen. *)
Definition draw_game_over : list Cairo :=
  let left := int_sub (int_div (int_mul BOARD_WIDTH BLOCK_SIZE) 2) 100 in
  let top := int_sub (int_div (int_mul BOARD_HEIGHT BLOCK_SIZE) 2) 40 in
  [ cairo_set_source_rgba 0 0 0 (9 # 10);
    cairo_rectangle left top 200 80;
    cairo_fill;
    cairo_set_source_rgb (5 # 10) (5 # 10) (5 # 10);
    cairo_rectangle left top 200 80;
    cairo_stroke;
    cairo_set_source_rgb 1 1 1;
    cairo_select_font_face "Sans" CAIRO_FONT_SLANT_NORMAL
      CAIRO_FONT_WEIGHT_BOLD;
    cairo_set_font_size 40;
    cairo_move_to
      (int_sub (int_div (int_mul BOARD_WIDTH BLOCK_SIZE) 2) 90)
      (int_add (int_div (int_mul BOARD_HEIGHT BLOCK_SIZE) 2) 15);
    cairo_show_text "GAME OVER" ].

Definition draw_callback (g : GameState) : bool * list Cairo :=
  (true,
   [ cairo_set_source_rgb (1 # 10) (1 # 10) (1 # 10); cairo_paint ]
   ++ draw_board g
   ++ [ set_color (color_of (current_type g)) ]
   ++ flat_map (draw_block g) (current_piece g)
   ++ (if game_over g then draw_game_over else [])).

(** ** Notions used to state the properties *)

(** The rows of a board that survive a clearing, in order, and the rows of
    the colour array that go with them. *)
Definition kept_rows (b : list (list Z)) : list (list Z) :=
  filter (fun r => row_is_full r = false) b.

Definition kept_colors (b c : list (list Z)) : list (list Z) :=
  (filter (fun p => row_is_full (fst p) = false) (zip b c)).*2.

(** Number of occupied cells. *)
Definition occupied_row (r : list Z) : nat :=
  length (filter (fun v => v <> 0) r).

Definition occupied (b : list (list Z)) : nat :=
  sum_list_with occupied_row b.

(** The shape of the two C arrays: [BOARD_HEIGHT] rows of [BOARD_WIDTH]
    cells. *)
Definition grid_shaped (b : list (list Z)) : Prop :=
  length b = Z.to_nat BOARD_HEIGHT /\
  Forall (fun r => length r = Z.to_nat BOARD_WIDTH) b.

(** Number of lines the scan of [clear_lines] counts on the state [g]. *)
Definition lines_cleared (g : GameState) : Z :=
  fst (fst (clear_scan (BOARD_HEIGHT - 1) 0 (board g) (board_colors g))).

(** The [int] value of [game.score + lines * 100 * game.level]. *)
Definition score_sum (g : GameState) : Z :=
  int_add (score g) (int_mul (int_mul (lines_cleared g) 100) (level g)).

(** The test that guards the level change of [clear_lines], on the score
    just updated. *)
Definition levels_up (g : GameState) : bool :=
  (score_sum g >=? int_mul (level g) LEVEL_THRESHOLD)
  && (level g <? MAX_LEVEL).

(** The board cell (column, row) of the block with offset [o]. *)
Definition block_cell (g : GameState) (o : Z * Z) : Z * Z :=
  (int_add (current_x g) (fst o), int_add (current_y g) (snd o)).

(** The cells of the active piece. *)
Definition landing_cells (g : GameState) : list (Z * Z) :=
  map (block_cell g) (current_piece g).

(** The board after a reset. *)
Definition empty_board : list (list Z) :=
  replicate (Z.to_nat BOARD_HEIGHT) zero_row.

(** The Down key. *)
Definition move_down (g : GameState) : GameState :=
  st (key_press (Some GDK_KEY_Down) g).


(** The state with the candidate offsets in place. *)
Definition rotated (g : GameState) : GameState :=
  set_current_piece (map rotate_block (current_piece g)) g.

(** The test [key_press] makes on the candidate. *)
Definition rotation_fits (g : GameState) : bool := can_move (rotated g) 0 0.


(** A cell: the occupancy flag [v] and the colour index [c]. *)
Definition cell_ok (v c : Z) : Prop := (v <> 0 <-> c <> 0) /\ 0 <= c <= 7.

(** The two arrays, cell by cell. *)
Definition cells_ok (b c : list (list Z)) : Prop :=
  Forall2 (Forall2 cell_ok) b c.

(** Every cell of the board has a consistent flag and colour index. *)
Definition board_ok (g : GameState) : Prop :=
  forall x y : Z, 0 <= x < BOARD_WIDTH -> 0 <= y < BOARD_HEIGHT ->
    cell_ok (cell (board g) y x) (cell (board_colors g) y x).

(** What every reachable state satisfies. *)
Definition game_inv (g : GameState) : Prop :=
  grid_shaped (board g) /\ grid_shaped (board_colors g) /\
  cells_ok (board g) (board_colors g) /\
  0 <= current_type g <= 6 /\ 0 <= next_type g <= 6 /\
  1 <= level g <= 10 /\ game_speed g = 500 / level g.

(** The fields [game_inv] speaks of. *)
Definition core (g : GameState) :=
  (board g, board_colors g, current_type g, next_type g, level g,
   game_speed g).

(** The callbacks GTK can invoke, with what the outside world answers
    during the call. *)
Inductive Event :=
| NewGame (rnd tid : Z)
| TogglePause
| KeyPress (event : option Key)
| Tick (rnd tid : Z).

(** The state a callback leaves. *)
Definition handle (e : Event) (g : GameState) : GameState :=
  match e with
  | NewGame rnd tid => st (start_new_game rnd tid g)
  | TogglePause => st (toggle_pause g)
  | KeyPress event => st (key_press event g)
  | Tick rnd tid => st (game_loop rnd tid g)
  end.

(** [secure_rand(7)] scales a value of [rand()] into [0 .. 6]. *)
Definition random_ok (e : Event) : Prop :=
  match e with
  | NewGame rnd _ | Tick rnd _ => 0 <= rnd < 7
  | _ => True
  end.

(** The states the program goes through: the one [main] sets up, and any
    state a callback leaves when called in such a state. *)
Inductive reachable : GameState -> Prop :=
| reach_main (rnd1 rnd2 tid : Z) :
    0 <= rnd1 < 7 -> 0 <= rnd2 < 7 ->
    reachable (st (main_setup rnd1 rnd2 tid))
| reach_step (e : Event) (g : GameState) :
    reachable g -> random_ok e -> reachable (handle e g).

(** ** Further notions *)

(** The state with the anchor displaced by (dx, dy), as the move keys and
    the gravity step leave it. *)
Definition moved (dx dy : Z) (g : GameState) : GameState :=
  set_current_y (int_add (current_y g) dy)
    (set_current_x (int_add (current_x g) dx) g).

(** A shape and the three shapes the rotation of [key_press] makes of it. *)
Definition rotations (s : list (Z * Z)) : list (list (Z * Z)) :=
  [ s;
    map rotate_block s;
    map rotate_block (map rotate_block s);
    map rotate_block (map rotate_block (map rotate_block s)) ].

(** The active piece is its catalog shape, rotated. *)
Definition piece_ok (g : GameState) : Prop :=
  current_piece g ∈ rotations (shape_of (current_type g)).

(** What holds of the active piece in every reachable state. *)
Definition play_inv (g : GameState) : Prop :=
  game_inv g /\ piece_ok g /\
  -3 <= current_x g <= 12 /\ 0 <= current_y g <= 22 /\
  (game_over g = false -> can_move g 0 0 = true).

(** A sequence of callbacks, first to last. *)
Definition run (es : list Event) (g : GameState) : GameState :=
  fold_left (fun s e => handle e s) es g.

Definition is_new_game (e : Event) : bool :=
  match e with
  | NewGame _ _ => true
  | _ => false
  end.

(** The library calls that touch the timer. *)
Definition is_timer_call (c : Call) : bool :=
  match c with
  | g_source_remove _ | g_timeout_add _ => true
  | _ => false
  end.

(** A rectangle inside a [w] by [h] area with its corner at the origin. *)
Definition inside (w h : Z) (c : Cairo) : Prop :=
  match c with
  | cairo_rectangle x y width height =>
      0 <= x /\ 0 <= y /\ x + width <= w /\ y + height <= h
  | _ => True
  end.

(** ** The timers of the main loop *)

(** The program's clock is a timeout source of the GLib main loop.  GLib
    is not part of the program; what the program relies on is GLib's
    documented contract: [g_timeout_add] attaches a new source and returns
    its id, [g_source_remove] destroys the source with the given id, and a
    source whose callback returns [FALSE] is destroyed when the callback
    returns.  The main loop is modelled by the ids of its timeout sources,
    oldest first. *)

(** The effect of one library call; [tid] is the id [g_timeout_add]
    returns. *)
Definition timer_call (tid : Z) (ts : list Z) (c : Call) : list Z :=
  match c with
  | g_timeout_add _ => ts ++ [tid]
  | g_source_remove id => filter (fun i => i <> id) ts
  | _ => ts
  end.

Definition timer_calls (tid : Z) (cs : list Call) (ts : list Z) : list Z :=
  fold_left (timer_call tid) cs ts.

(** What a callback hands back.  The two button callbacks return nothing;
    their value is recorded as [true]. *)
Definition outcome (e : Event) (g : GameState) : Out bool :=
  match e with
  | NewGame rnd tid =>
      let o := start_new_game rnd tid g in mkOut true (st o) (calls o)
  | TogglePause => let o := toggle_pause g in mkOut true (st o) (calls o)
  | KeyPress event => key_press event g
  | Tick rnd tid => game_loop rnd tid g
  end.

(** The id a callback receives from [g_timeout_add], should it call it. *)
Definition new_source (e : Event) : Z :=
  match e with
  | NewGame _ tid | Tick _ tid => tid
  | _ => 0
  end.

(** Only the timer callback tells GLib to drop a source. *)
Definition drops_source (e : Event) (o : Out bool) : bool :=
  match e with
  | Tick _ _ => negb (ret o)
  | _ => false
  end.

(** The game together with the timeout sources of the main loop. *)
Record Loop := mkLoop {
  game : GameState;
  timers : list Z
}.

(** The main loop runs the callback [e]; when [e] is a tick, [src] is the
    source that fired. *)
Definition dispatch (src : Z) (e : Event) (w : Loop) : Loop :=
  let o := outcome e (game w) in
  let ts := timer_calls (new_source e) (calls o) (timers w) in
  mkLoop (st o)
         (if drops_source e o then filter (fun i => i <> src) ts else ts).

(** A sequence of callbacks whose ticks all come from the source [src]. *)
Definition run_loop (src : Z) (es : list Event) (w : Loop) : Loop :=
  fold_left (fun w e => dispatch src e w) es w.

(** The main loop as [main] enters it. *)
Definition main_loop (rnd1 rnd2 tid : Z) : Loop :=
  let o := main_setup rnd1 rnd2 tid in
  mkLoop (st o) (timer_calls tid (calls o) []).

(** ** Notions for runs *)

(** [random_ok], as a test. *)
Definition event_ok (e : Event) : bool :=
  match e with
  | NewGame rnd _ | Tick rnd _ => (0 <=? rnd) && (rnd <? 7)
  | _ => true
  end.

(** The state with the score and its text blanked.  At the top level the
    callbacks read neither, so they act on a state as on its blanked
    version. *)
Definition unscored (g : GameState) : GameState :=
  set_score_text "" (set_score 0 g).

(** The text of the label is the one of the current score and level. *)
Definition labelled (g : GameState) : Prop :=
  score_text g = score_line (score g) (level g).

(** ** Sample states *)

(** A board with full rows at indices 16, 18 and 19: clearing row 19 brings
    the full row 18 down to index 19, where it is found on the second look. *)
Definition demo_board : list (list Z) :=
  replicate 15 zero_row ++
  [ [0; 0; 0; 0; 1; 0; 0; 0; 0; 0];
    [1; 1; 1; 1; 1; 1; 1; 1; 1; 1];
    [1; 1; 0; 0; 1; 1; 0; 0; 1; 1];
    [1; 1; 1; 1; 1; 1; 1; 1; 1; 1];
    [1; 1; 1; 1; 1; 1; 1; 1; 1; 1] ].

Definition demo_colors : list (list Z) :=
  replicate 15 zero_row ++
  [ [0; 0; 0; 0; 5; 0; 0; 0; 0; 0];
    [1; 1; 2; 2; 2; 2; 3; 3; 1; 1];
    [1; 1; 0; 0; 7; 7; 0; 0; 1; 1];
    [4; 4; 4; 4; 6; 6; 6; 6; 1; 1];
    [2; 2; 2; 2; 5; 5; 5; 3; 3; 3] ].

Definition demo_game : GameState :=
  mkGame demo_board demo_colors 3 0 [(0,0); (0,1); (1,0); (1,1)] 0 4
         1200 1 500 "Score: 1200  Level: 1" false false 17.

(** A state whose landing is worth 300 points and takes the score from
    14900 past 5000, 10000 and 15000 at once. *)
Definition leap_game : GameState := set_score 14900 demo_game.


(** A square piece resting on a block at column 3, row 2: it cannot move
    down, and once it has landed the next piece has no room. *)
Definition stuck_board : list (list Z) :=
  [zero_row; zero_row; [0; 0; 0; 1; 0; 0; 0; 0; 0; 0]]
  ++ replicate 17 zero_row.

Definition stuck_game : GameState :=
  mkGame stuck_board stuck_board 3 0 [(0, 0); (0, 1); (1, 0); (1, 1)] 0 0
         0 1 500 "Score: 0  Level: 1" false false 17.

(** The scenario of a line piece falling into the only gap of the bottom
    row. *)
Definition gap_board : list (list Z) :=
  replicate 19 zero_row ++ [[1; 1; 1; 1; 1; 0; 1; 1; 1; 1]].

Definition gap_colors : list (list Z) :=
  replicate 19 zero_row ++ [[3; 3; 3; 3; 1; 0; 1; 5; 5; 5]].

Definition gap_game : GameState :=
  mkGame gap_board gap_colors 5 16 [(0, 0); (0, 1); (0, 2); (0, 3)] 1 4
         0 1 500 "Score: 0  Level: 1" false false 17.

(** ** Sample runs *)

(** Key presses that bring the spawned piece [side] columns to the side
    and [down] rows down. *)
Definition place (k : Key) (side down : nat) : list Event :=
  replicate side (KeyPress (Some k))
  ++ replicate down (KeyPress (Some GDK_KEY_Down)).

(** The same, followed by the tick that lands the piece; [rnd] is the type
    of the piece after the next one. *)
Definition on_top (k : Key) (side down : nat) (rnd tid : Z) : list Event :=
  place k side down ++ [Tick rnd tid].

(** Four squares side by side on the floor, and a fifth one above the last
    gap: started on an empty board with squares as current and next piece,
    it leaves rows 18 and 19 full but for columns 8 and 9. *)
Definition four_squares (tid : Z) : list Event :=
  on_top GDK_KEY_Left 3 18 0 tid ++ on_top GDK_KEY_Left 1 18 0 tid
  ++ on_top GDK_KEY_Right 1 18 0 tid ++ on_top GDK_KEY_Right 3 18 0 tid
  ++ place GDK_KEY_Right 5 18.

(** One round: the fifth square lands, two rows are cleared and the board
    is empty again. *)
Definition square_rows (tid : Z) : list Event :=
  four_squares tid ++ [Tick 0 tid].

Definition laps (n : nat) (tid : Z) : list Event :=
  mjoin (replicate n (square_rows tid)).

(** From [main] to level 10: at level l a round is worth 200 * l points,
    and the level goes up when the score reaches 5000 * l.  The timer ids
    are 1 (from [main]) to 10; one more round at level 10 brings the label
    up to date. *)
Definition climb : list Event :=
  laps 25 2 ++ laps 13 3 ++ laps 8 4 ++ laps 7 5 ++ laps 5 6 ++ laps 4 7
  ++ laps 4 8 ++ laps 3 9 ++ laps 3 10 ++ laps 1 11.

(** The state [climb] leaves. *)
Definition top_game : GameState :=
  mkGame empty_board empty_board 3 0 [(0, 0); (0, 1); (1, 0); (1, 1)] 0 0
         48200 10 50 "Score: 48200  Level: 10" false false 10.

(** The same state with another score: what further rounds leave. *)
Definition lap_game (s : Z) : GameState :=
  set_score_text (score_line s 10) (set_score s top_game).

(** The state after [climb], 1073717 further rounds and the first four
    squares of one more: the fifth square is about to land and clear two
    rows, worth 2000 points at level 10, and the score is 1447 below
    [INT_MAX]. *)
Definition brink_board : list (list Z) :=
  replicate 18 zero_row ++ replicate 2 [1; 1; 1; 1; 1; 1; 1; 1; 0; 0].

Definition overflow_game : GameState :=
  mkGame brink_board brink_board 8 18 [(0, 0); (0, 1); (1, 0); (1, 1)] 0 0
         2147482200 10 50 "Score: 2147482200  Level: 10" false false 10.

(** A run that ends the game at a level change.  After 24 rounds (4800
    points, level 1): squares in columns 0-1, 5-6 and 7-8, line pieces in
    columns 2 and 9, five line pieces on top of each other in column 4 up
    to row 0, and a last line piece brought down in column 3.  The next
    piece is the Z. *)
Definition finale : list Event :=
  on_top GDK_KEY_Left 3 18 0 2 ++ on_top GDK_KEY_Right 2 18 1 2
  ++ on_top GDK_KEY_Right 4 18 1 2 ++ on_top GDK_KEY_Left 1 16 1 2
  ++ on_top GDK_KEY_Right 6 16 1 2 ++ on_top GDK_KEY_Right 1 16 1 2
  ++ on_top GDK_KEY_Right 1 12 1 2 ++ on_top GDK_KEY_Right 1 8 1 2
  ++ on_top GDK_KEY_Right 1 4 1 2 ++ on_top GDK_KEY_Right 1 0 2 2
  ++ place GDK_KEY_Down 0 16.

Definition endgame_run : list Event := laps 24 2 ++ finale.

(** The state [endgame_run] leaves: the line piece in column 3 completes
    rows 18 and 19, which takes the score to 5000, and once these are
    cleared the pieces in column 4 still reach row 2. *)
Definition endgame_board : list (list Z) :=
  replicate 16 [0; 0; 0; 0; 1; 0; 0; 0; 0; 0]
  ++ replicate 2 [0; 0; 1; 0; 1; 0; 0; 0; 0; 1]
  ++ replicate 2 [1; 1; 1; 0; 1; 1; 1; 1; 1; 1].

Definition endgame_colors : list (list Z) :=
  replicate 16 [0; 0; 0; 0; 2; 0; 0; 0; 0; 0]
  ++ replicate 2 [0; 0; 2; 0; 2; 0; 0; 0; 0; 2]
  ++ replicate 2 [1; 1; 2; 0; 2; 1; 1; 1; 1; 2].

Definition endgame_game : GameState :=
  mkGame endgame_board endgame_colors 3 16 [(0, 0); (0, 1); (0, 2); (0, 3)]
         1 2 4800 1 500 "Score: 4800  Level: 1" false false 1.

(** The state after the tick that ends that game. *)
Definition over_game : GameState := handle (Tick 0 2) endgame_game.

(** A run from [main] that fills rows 18 and 19 but for column 9 with four
    squares and a line piece, and brings a second line piece down column 9:
    its landing completes the two rows and leaves the upper halves of the
    two line pieces. *)
Definition sweep_run : list Event :=
  on_top GDK_KEY_Left 3 18 0 2 ++ on_top GDK_KEY_Left 1 18 0 2
  ++ on_top GDK_KEY_Right 1 18 1 2 ++ on_top GDK_KEY_Right 3 18 1 2
  ++ on_top GDK_KEY_Right 5 16 4 2 ++ place GDK_KEY_Right 6 16.

Definition ledge_board : list (list Z) :=
  replicate 16 zero_row
  ++ replicate 2 [0; 0; 0; 0; 0; 0; 0; 0; 1; 0]
  ++ replicate 2 [1; 1; 1; 1; 1; 1; 1; 1; 1; 0].

Definition ledge_colors : list (list Z) :=
  replicate 16 zero_row
  ++ replicate 2 [0; 0; 0; 0; 0; 0; 0; 0; 2; 0]
  ++ replicate 2 [1; 1; 1; 1; 1; 1; 1; 1; 2; 0].

(** The state [sweep_run] leaves, and the state after the landing. *)
Definition ledge_game : GameState :=
  mkGame ledge_board ledge_colors 9 16 [(0, 0); (0, 1); (0, 2); (0, 3)] 1 4
         0 1 500 "Score: 0  Level: 1" false false 1.

Definition swept_game : GameState := handle (Tick 5 2) ledge_game.

(** * Properties *)

Ltac board_size := cbv delta [BOARD_HEIGHT BOARD_WIDTH] in *.
Ltac blia := board_size; lia.

(** ** [int] arithmetic *)

Lemma wrap_small (z : Z) : is_int z -> wrap z = z.
Proof.
  unfold is_int, INT_MIN, INT_MAX, wrap. intros Hz.
  rewrite Z.mod_small by lia. lia.
Qed.

Lemma wrap_is_int (z : Z) : is_int (wrap z).
Proof.
  unfold is_int, INT_MIN, INT_MAX, wrap.
  pose proof (Z.mod_pos_bound (z + 2 ^ 31) (2 ^ 32) ltac:(lia)). lia.
Qed.

(** ** The scan of [clear_lines] *)

Lemma clear_scan_step (y lines : Z) (b c : list (list Z)) :
  clear_scan y lines b c =
  if 0 <=? y then
    if row_full b y
    then clear_scan y (int_add lines 1) (drop_row y b) (drop_row y c)
    else clear_scan (y - 1) lines b c
  else (lines, b, c).
Proof.
  funelim (clear_scan y lines b c); rewrite Hy; try rewrite Hfull;
    reflexivity.
Qed.

Lemma full_rows_app (l1 l2 : list (list Z)) :
  full_rows (l1 ++ l2) = (full_rows l1 + full_rows l2)%nat.
Proof. unfold full_rows. by rewrite filter_app, length_app. Qed.

Lemma kept_rows_app (l1 l2 : list (list Z)) :
  kept_rows (l1 ++ l2) = kept_rows l1 ++ kept_rows l2.
Proof. unfold kept_rows. by rewrite filter_app. Qed.

Lemma kept_colors_app (b1 b2 c1 c2 : list (list Z)) :
  length b1 = length c1 ->
  kept_colors (b1 ++ b2) (c1 ++ c2) = kept_colors b1 c1 ++ kept_colors b2 c2.
Proof.
  intros Hl. unfold kept_colors.
  rewrite zip_with_app by done. by rewrite filter_app, fmap_app.
Qed.

Lemma full_rows_one (r : list Z) :
  full_rows [r] = if row_is_full r then 1%nat else 0%nat.
Proof.
  unfold full_rows. destruct (row_is_full r) eqn:Hr.
  - by rewrite filter_cons_True.
  - rewrite filter_cons_False; [done | congruence].
Qed.

Lemma kept_rows_one (r : list Z) :
  kept_rows [r] = if row_is_full r then [] else [r].
Proof.
  unfold kept_rows. destruct (row_is_full r) eqn:Hr.
  - rewrite filter_cons_False; [done | congruence].
  - by rewrite filter_cons_True.
Qed.

Lemma kept_colors_one (r rc : list Z) :
  kept_colors [r] [rc] = if row_is_full r then [] else [rc].
Proof.
  unfold kept_colors. simpl. destruct (row_is_full r) eqn:Hr.
  - rewrite filter_cons_False; [done | simpl; congruence].
  - by rewrite filter_cons_True.
Qed.

(** What the scan computes from row [y] upwards, the rows below [y] being
    left as they are. *)
Lemma clear_scan_spec (m : nat) :
  forall (y lines : Z) (b c : list (list Z)),
    let n := Z.to_nat (y + 1) in
    let k := full_rows (take n b) in
    (full_rows b + n <= m)%nat ->
    -1 <= y ->
    (n <= length b)%nat ->
    length c = length b ->
    0 <= lines ->
    lines + Z.of_nat k <= INT_MAX ->
    clear_scan y lines b c =
      (lines + Z.of_nat k,
       replicate k zero_row ++ kept_rows (take n b) ++ drop n b,
       replicate k zero_row ++ kept_colors (take n b) (take n c) ++ drop n c).
Proof.
  induction m as [|m IH]; intros y lines b c n k Hm Hy Hn Hc Hl Hk;
    rewrite clear_scan_step.
  - assert (y = -1) as -> by lia. simpl.
    subst n k. simpl. by rewrite !drop_0, Z.add_0_r.
  - destruct (0 <=? y) eqn:Hy0.
    2:{ assert (y = -1) as -> by lia. subst n k. simpl.
        by rewrite !drop_0, Z.add_0_r. }
    apply Z.leb_le in Hy0.
    set (n' := Z.to_nat y).
    assert (n = S n') as Hn' by (subst n n'; lia).
    destruct (lookup_lt_is_Some_2 b n' ltac:(lia)) as [r Hr].
    destruct (lookup_lt_is_Some_2 c n' ltac:(lia)) as [rc Hrc].
    assert (take n b = take n' b ++ [r]) as Htb
      by (rewrite Hn'; by apply take_S_r).
    assert (take n c = take n' c ++ [rc]) as Htc
      by (rewrite Hn'; by apply take_S_r).
    assert (length (take n' b) = length (take n' c)) as Hlt
      by (rewrite !length_take; lia).
    assert (row_full b y = row_is_full r) as Hrf
      by (unfold row_full, row_at; fold n'; by rewrite Hr).
    assert (k = (full_rows (take n' b) + if row_is_full r then 1 else 0)%nat)
      as Hkk by (subst k; by rewrite Htb, full_rows_app, full_rows_one).
    rewrite Htb, Htc, kept_rows_app, kept_colors_app, kept_rows_one,
      kept_colors_one by done.
    rewrite Hrf. clearbody k. subst k.
    destruct (row_is_full r) eqn:Hfull.
    + (* the row is removed *)
      assert (drop_row y b = zero_row :: take n' b ++ drop n b) as Hdb
        by (rewrite drop_row_spec by (fold n'; lia); fold n'; by rewrite Hn').
      assert (drop_row y c = zero_row :: take n' c ++ drop n c) as Hdc
        by (rewrite drop_row_spec by (fold n'; lia); fold n'; by rewrite Hn').
      assert (length (take n' b) = n') as Hl1 by (rewrite length_take; lia).
      assert (length (take n' c) = n') as Hl2 by (rewrite length_take; lia).
      assert (full_rows (drop_row y b) < full_rows b)%nat as Hdec
        by (apply full_rows_drop_row; by rewrite Hrf).
      assert (int_add lines 1 = lines + 1) as ->
        by (apply wrap_small; unfold is_int, INT_MIN, INT_MAX in *; lia).
      assert (take n (drop_row y b) = [zero_row] ++ take n' b) as Ht1
        by (rewrite Hdb, Hn'; simpl; by rewrite take_app_length').
      assert (take n (drop_row y c) = [zero_row] ++ take n' c) as Ht2
        by (rewrite Hdc, Hn'; simpl; by rewrite take_app_length').
      assert (drop n (drop_row y b) = drop n b) as Hd1
        by (rewrite Hdb, Hn'; simpl; by rewrite drop_app_length').
      assert (drop n (drop_row y c) = drop n c) as Hd2
        by (rewrite Hdc, Hn'; simpl; by rewrite drop_app_length').
      rewrite IH; fold n; rewrite ?Ht1, ?Ht2, ?Hd1, ?Hd2.
      * rewrite full_rows_app, kept_rows_app, kept_colors_app by done.
        rewrite full_rows_one, kept_rows_one, kept_colors_one.
        change (row_is_full zero_row) with false.
        rewrite !app_nil_r, Nat.add_1_r. simpl.
        rewrite !(cons_middle zero_row (replicate _ _)), !app_assoc.
        rewrite <- !replicate_cons_app. simpl.
        do 2 f_equal. lia.
      * lia.
      * lia.
      * rewrite Hdb. simpl. rewrite !length_app, length_take, length_drop. lia.
      * rewrite Hdb, Hdc. simpl.
        rewrite !length_app, !length_take, !length_drop. lia.
      * lia.
      * rewrite full_rows_app, full_rows_one.
        change (row_is_full zero_row) with false. simpl. lia.
    + (* the row stays *)
      assert (Z.to_nat (y - 1 + 1) = n') as Hn1 by (subst n'; lia).
      rewrite IH; rewrite ?Hn1.
      * rewrite (drop_S b r n' Hr), (drop_S c rc n' Hrc), <- Hn'.
        rewrite Nat.add_0_r, <- !app_assoc. done.
      * lia.
      * lia.
      * lia.
      * done.
      * done.
      * lia.
Qed.

Lemma kept_rows_cons (r : list Z) (l : list (list Z)) :
  kept_rows (r :: l) = (if row_is_full r then [] else [r]) ++ kept_rows l.
Proof. by rewrite <- kept_rows_one, <- kept_rows_app. Qed.

Lemma full_rows_cons (r : list Z) (l : list (list Z)) :
  full_rows (r :: l) = ((if row_is_full r then 1 else 0) + full_rows l)%nat.
Proof. by rewrite <- full_rows_one, <- full_rows_app. Qed.

Lemma kept_colors_cons (r rc : list Z) (b c : list (list Z)) :
  kept_colors (r :: b) (rc :: c) =
  (if row_is_full r then [] else [rc]) ++ kept_colors b c.
Proof.
  rewrite <- kept_colors_one.
  by rewrite <- (kept_colors_app [r] b [rc] c).
Qed.

Lemma length_kept_rows (b : list (list Z)) :
  (length (kept_rows b) + full_rows b = length b)%nat.
Proof.
  induction b as [|r b IH]; [done|].
  rewrite kept_rows_cons, full_rows_cons, length_app.
  destruct (row_is_full r); simpl; lia.
Qed.

Lemma length_kept_colors (b c : list (list Z)) :
  length c = length b -> length (kept_colors b c) = length (kept_rows b).
Proof.
  revert c. induction b as [|r b IH]; intros [|rc c] Hl; try done.
  rewrite kept_colors_cons, kept_rows_cons, !length_app, IH
    by (simpl in Hl; lia).
  by destruct (row_is_full r).
Qed.

Lemma full_rows_zero_rows (k : nat) : full_rows (replicate k zero_row) = O.
Proof.
  induction k as [|k IH]; [done|]. simpl. by rewrite full_rows_cons, IH.
Qed.

Lemma full_rows_kept_rows (b : list (list Z)) : full_rows (kept_rows b) = O.
Proof.
  induction b as [|r b IH]; [done|].
  rewrite kept_rows_cons, full_rows_app, IH.
  destruct (row_is_full r) eqn:Hr; [done|].
  by rewrite full_rows_one, Hr.
Qed.

Lemma occupied_app (l1 l2 : list (list Z)) :
  occupied (l1 ++ l2) = (occupied l1 + occupied l2)%nat.
Proof. apply sum_list_with_app. Qed.

Lemma occupied_zero_rows (k : nat) : occupied (replicate k zero_row) = O.
Proof.
  induction k as [|k IH]; [done|]. unfold occupied in *. simpl.
  by rewrite IH.
Qed.

(** In a full row of the right width every cell is occupied. *)
Lemma occupied_row_full (r : list Z) :
  length r = Z.to_nat BOARD_WIDTH -> row_is_full r = true ->
  occupied_row r = Z.to_nat BOARD_WIDTH.
Proof.
  intros Hl Hf. do 11 (destruct r as [|? r]; try discriminate Hl).
  unfold row_is_full in Hf. simpl in Hf.
  unfold occupied_row. clear Hl.
  repeat match goal with
  | H : context [?z =? 0] |- _ => destruct (Z.eqb_spec z 0); simpl in H
  end; try discriminate.
  by rewrite !filter_cons_True by done.
Qed.

Lemma occupied_kept_rows (b : list (list Z)) :
  Forall (fun r => length r = Z.to_nat BOARD_WIDTH) b ->
  (occupied (kept_rows b) + Z.to_nat BOARD_WIDTH * full_rows b
   = occupied b)%nat.
Proof.
  induction 1 as [|r b Hr Hb IH]; [done|].
  rewrite kept_rows_cons, full_rows_cons, occupied_app.
  change (occupied (r :: b)) with (occupied_row r + occupied b)%nat.
  destruct (row_is_full r) eqn:Hf.
  - rewrite <- IH, (occupied_row_full r Hr Hf).
    change (occupied []) with O. lia.
  - rewrite <- IH. change (occupied [r]) with (occupied_row r + 0)%nat. lia.
Qed.

(** The scan started at the bottom row of a whole board. *)
Lemma clear_scan_board (b c : list (list Z)) :
  length b = Z.to_nat BOARD_HEIGHT -> length c = Z.to_nat BOARD_HEIGHT ->
  clear_scan (BOARD_HEIGHT - 1) 0 b c =
    (Z.of_nat (full_rows b),
     replicate (full_rows b) zero_row ++ kept_rows b,
     replicate (full_rows b) zero_row ++ kept_colors b c).
Proof.
  intros Hb Hc.
  pose proof (length_kept_rows b) as Hk.
  rewrite (clear_scan_spec (full_rows b + Z.to_nat BOARD_HEIGHT));
    change (Z.to_nat (BOARD_HEIGHT - 1 + 1)) with (Z.to_nat BOARD_HEIGHT);
    rewrite ?take_ge, ?drop_ge, ?app_nil_r by lia;
    try done; try lia.
  change (Z.to_nat BOARD_HEIGHT) with 20%nat in *. unfold INT_MAX. lia.
Qed.

Lemma clear_lines_boards (tid : Z) (g : GameState) :
  board (st (clear_lines tid g)) =
    snd (fst (clear_scan (BOARD_HEIGHT - 1) 0 (board g) (board_colors g))) /\
  board_colors (st (clear_lines tid g)) =
    snd (clear_scan (BOARD_HEIGHT - 1) 0 (board g) (board_colors g)).
Proof.
  unfold clear_lines.
  destruct (clear_scan _ _ _ _) as [[lines b] c]. simpl.
  by destruct (_ && _).
Qed.

(** The row kept from index [i] ends up below the new top rows and the
    kept rows that were above it. *)
Lemma kept_rows_lookup (b : list (list Z)) (i : nat) (r : list Z) :
  b !! i = Some r -> row_is_full r = false ->
  kept_rows b !! length (kept_rows (take i b)) = Some r.
Proof.
  intros Hr Hf.
  replace (kept_rows b) with (kept_rows (take i b ++ r :: drop (S i) b))
    by (by rewrite take_drop_middle).
  rewrite kept_rows_app, kept_rows_cons, Hf.
  by rewrite lookup_app_r, Nat.sub_diag by lia.
Qed.

Lemma kept_colors_lookup (b c : list (list Z)) (i : nat) (r rc : list Z) :
  length c = length b ->
  b !! i = Some r -> c !! i = Some rc -> row_is_full r = false ->
  kept_colors b c !! length (kept_rows (take i b)) = Some rc.
Proof.
  intros Hl Hr Hrc Hf.
  assert (length (take i c) = length (take i b)) as Hlt
    by (rewrite !length_take; lia).
  replace (kept_colors b c) with
    (kept_colors (take i b ++ r :: drop (S i) b)
                 (take i c ++ rc :: drop (S i) c))
    by (by rewrite !take_drop_middle).
  rewrite kept_colors_app, kept_colors_cons, Hf by done.
  rewrite <- (length_kept_colors (take i b) (take i c)) by done.
  by rewrite lookup_app_r, Nat.sub_diag by lia.
Qed.

(** ** C1: line clearing *)

(** C1.  On a board of 20 rows of 10 cells with [k] full rows, [clear_lines]
    counts [k] lines and leaves the board made of [k] empty rows followed by
    the rows that were not full, in their order (the colour array likewise):
    no full row remains, a row that was not full moves down by the number of
    full rows that were below it, the top [k] rows are empty, and the number
    of occupied cells drops by [k * 10]. *)
Theorem clear_lines_removes_full_rows (tid : Z) (g : GameState) :
  grid_shaped (board g) -> grid_shaped (board_colors g) ->
  let k := full_rows (board g) in
  let g' := st (clear_lines tid g) in
  fst (fst (clear_scan (BOARD_HEIGHT - 1) 0 (board g) (board_colors g)))
    = Z.of_nat k /\
  board g' = replicate k zero_row ++ kept_rows (board g) /\
  board_colors g' =
    replicate k zero_row ++ kept_colors (board g) (board_colors g) /\
  full_rows (board g') = O /\
  (forall (i : nat) (r rc : list Z),
      board g !! i = Some r -> board_colors g !! i = Some rc ->
      row_is_full r = false ->
      let j := (i + full_rows (drop (S i) (board g)))%nat in
      board g' !! j = Some r /\ board_colors g' !! j = Some rc) /\
  (forall i : nat, (i < k)%nat ->
      board g' !! i = Some zero_row /\ board_colors g' !! i = Some zero_row) /\
  (occupied (board g') + k * 10 = occupied (board g))%nat.
Proof.
  intros [Hb Hbw] [Hc Hcw] k g'.
  destruct (clear_lines_boards tid g) as [Eb Ec]. fold g' in Eb, Ec.
  rewrite (clear_scan_board _ _ Hb Hc) in Eb, Ec |- *. simpl in Eb, Ec.
  fold k in Eb, Ec. rewrite Eb, Ec.
  split; [done|]. split; [done|]. split; [done|].
  split; [|split; [|split]].
  - by rewrite full_rows_app, full_rows_zero_rows, full_rows_kept_rows.
  - intros i r rc Hr Hrc Hf j.
    assert (i < length (board g))%nat as Hi by (by eapply lookup_lt_Some).
    assert (j = k + length (kept_rows (take i (board g))))%nat as ->.
    { subst j k. pose proof (length_kept_rows (take i (board g))) as Hk.
      rewrite length_take in Hk.
      rewrite <- (take_drop_middle (board g) i r Hr) at 2.
      rewrite full_rows_app, full_rows_cons, Hf. lia. }
    rewrite !lookup_app_r by (rewrite length_replicate; lia).
    rewrite length_replicate.
    replace (k + length (kept_rows (take i (board g))) - k)%nat
      with (length (kept_rows (take i (board g)))) by lia.
    split.
    + by apply kept_rows_lookup.
    + apply (kept_colors_lookup _ _ i r rc); [lia|done..].
  - intros i Hi.
    rewrite !lookup_app_l by (rewrite length_replicate; lia).
    by rewrite !lookup_replicate_2.
  - rewrite occupied_app, occupied_zero_rows.
    pose proof (occupied_kept_rows (board g) Hbw) as Ho.
    change (Z.to_nat BOARD_WIDTH) with 10%nat in Ho. fold k in Ho. lia.
Qed.

Lemma clear_lines_removes_full_rows_witness :
  grid_shaped (board demo_game) /\ grid_shaped (board_colors demo_game) /\
  full_rows (board demo_game) = 3%nat /\
  board (st (clear_lines 18 demo_game)) =
    replicate 3 zero_row ++ kept_rows (board demo_game) /\
  board_colors (st (clear_lines 18 demo_game)) =
    replicate 3 zero_row
      ++ kept_colors (board demo_game) (board_colors demo_game) /\
  (occupied (board (st (clear_lines 18 demo_game))) + 3 * 10
   = occupied (board demo_game))%nat.
Proof.
  assert (grid_shaped (board demo_game)) as Hb
    by (split; [reflexivity | repeat constructor]).
  assert (grid_shaped (board_colors demo_game)) as Hc
    by (split; [reflexivity | repeat constructor]).
  pose proof (clear_lines_removes_full_rows 18 demo_game Hb Hc) as H.
  simpl in H. destruct H as (_ & H1 & H2 & _ & _ & _ & H3).
  repeat split; try assumption; try reflexivity; repeat constructor.
Defined.

(** ** The arithmetic of [clear_lines] *)

(** An [int] is never greater than [INT_MAX]: the comparison that guards
    the score update of [clear_lines] always fails. *)
Lemma int_add_not_above_max (a b : Z) : (int_add a b >? INT_MAX) = false.
Proof.
  pose proof (wrap_is_int (a + b)) as [_ H]. unfold int_add.
  destruct (Z.gtb_spec (wrap (a + b)) INT_MAX); [lia | done].
Qed.

(** [clear_lines] with the dead comparison removed. *)
Lemma clear_lines_eq (tid : Z) (g : GameState) :
  clear_lines tid g =
  let '(lines, b, c) :=
    clear_scan (BOARD_HEIGHT - 1) 0 (board g) (board_colors g) in
  let g3 := set_score_text (score_line (score_sum g) (level g))
              (set_score (score_sum g) (set_boards b c g)) in
  let shown := [gtk_label_set_text score_label (score_text g3)] in
  if (score_sum g >=? int_mul (level g) LEVEL_THRESHOLD)
     && (level g <? MAX_LEVEL)
  then
    let l := int_add (level g) 1 in
    mkOut tt (set_timeout_id tid (set_game_speed (int_div 500 l)
                                    (set_level l g3)))
      (shown ++ [g_source_remove (timeout_id g);
                 g_timeout_add (int_div 500 l)])
  else mkOut tt g3 shown.
Proof.
  unfold clear_lines, score_sum, lines_cleared.
  destruct (clear_scan _ _ _ _) as [[lines b] c]. simpl.
  by rewrite int_add_not_above_max.
Qed.

Lemma clear_lines_score (tid : Z) (g : GameState) :
  score (st (clear_lines tid g)) = score_sum g.
Proof.
  rewrite clear_lines_eq.
  destruct (clear_scan _ _ _ _) as [[lines b] c]. simpl.
  by destruct (_ && _).
Qed.

Lemma clear_lines_level (tid : Z) (g : GameState) :
  level (st (clear_lines tid g)) =
  if (score_sum g >=? int_mul (level g) LEVEL_THRESHOLD)
     && (level g <? MAX_LEVEL)
  then int_add (level g) 1 else level g.
Proof.
  rewrite clear_lines_eq.
  destruct (clear_scan _ _ _ _) as [[lines b] c]. simpl.
  by destruct (_ && _).
Qed.

(** ** C10: one level per landing *)

(** C10.  Whatever the score reached, one call of [clear_lines] raises the
    level by one at most (and never lowers it). *)
Theorem clear_lines_level_step (tid : Z) (g : GameState) :
  is_int (level g) ->
  level g <= level (st (clear_lines tid g)) <= level g + 1.
Proof.
  intros Hl. rewrite clear_lines_level.
  destruct (_ && _) eqn:Hc; [|lia].
  apply andb_true_iff in Hc as [_ Hlt]. apply Z.ltb_lt in Hlt.
  unfold int_add. rewrite wrap_small; [lia|].
  unfold is_int, INT_MIN, INT_MAX, MAX_LEVEL in *. lia.
Qed.

Lemma clear_lines_level_step_witness :
  is_int (level leap_game) /\
  score (st (clear_lines 18 leap_game)) = 15200 /\
  level leap_game <= level (st (clear_lines 18 leap_game))
    <= level leap_game + 1.
Proof.
  assert (is_int (level leap_game)) as H by (vm_compute; split; discriminate).
  split; [exact H|]. split; [reflexivity|].
  exact (clear_lines_level_step 18 leap_game H).
Defined.

(** ** C4: collision test *)

(** C4.  [can_move] answers [true] exactly when every block of the piece,
    displaced by (dx, dy), has its column in [0 .. 9], its row below 20 and,
    if the row is not negative, an empty board cell; a block whose row is
    negative is not looked up in the board.  The coordinates are the [int]
    sums the program computes. *)
Theorem can_move_iff (g : GameState) (dx dy : Z) :
  can_move g dx dy = true <->
  forall o : Z * Z, o ∈ current_piece g ->
    let x := int_add (int_add (current_x g) (fst o)) dx in
    let y := int_add (int_add (current_y g) (snd o)) dy in
    0 <= x /\ x < BOARD_WIDTH /\ y < BOARD_HEIGHT /\
    (0 <= y -> cell (board g) y x = 0).
Proof.
  unfold can_move. rewrite forallb_forall.
  split; intros H o Ho.
  - apply list_elem_of_In, H in Ho. unfold block_fits in Ho. simpl.
    apply negb_true_iff in Ho.
    repeat (apply orb_false_iff in Ho as [Ho ?]).
    repeat split; lia.
  - apply list_elem_of_In, H in Ho. simpl in Ho.
    destruct Ho as (Hx0 & Hx1 & Hy1 & Hc).
    unfold block_fits. apply negb_true_iff.
    repeat (apply orb_false_iff; split); lia.
Qed.

(** ** C9: the square piece on an empty board *)

Lemma key_press_playing (k : Key) (g : GameState) :
  game_over g = false -> paused g = false -> k <> GDK_KEY_p ->
  key_press (Some k) g =
  mkOut true (key_action k g) [gtk_widget_queue_draw drawing_area].
Proof.
  intros Hg Hp Hk. unfold key_press. rewrite Hg.
  destruct k; try done; simpl; by rewrite Hp.
Qed.

Lemma square_can_fall (rnd : Z) (g : GameState) (n : nat) :
  board g = empty_board -> next_type g = 0 -> (n <= 18)%nat ->
  can_move (set_current_y (Z.of_nat n) (st (new_piece rnd g))) 0 1
  = bool_decide (n < 18)%nat.
Proof.
  intros Hb Ht Hn. unfold can_move, block_fits.
  cbn [st new_piece board current_x current_y current_piece current_type
       set_current_type set_next_type set_current_x set_current_y
       set_current_piece].
  rewrite Hb, Ht.
  do 19 (destruct n as [|n]; [vm_compute; reflexivity|]). lia.
Qed.

Lemma square_falls (rnd : Z) (g : GameState) (n : nat) :
  board g = empty_board -> next_type g = 0 ->
  game_over g = false -> paused g = false -> (n <= 18)%nat ->
  Nat.iter n move_down (st (new_piece rnd g))
  = set_current_y (Z.of_nat n) (st (new_piece rnd g)).
Proof.
  intros Hb Ht Hg Hp. induction n as [|n IH]; intros Hn.
  - reflexivity.
  - rewrite Nat.iter_succ, IH by lia. unfold move_down.
    rewrite key_press_playing by done. cbn [st]. unfold key_action.
    rewrite square_can_fall, bool_decide_eq_true_2 by (done || lia).
    cbn [current_y set_current_y].
    replace (int_add (Z.of_nat n) 1) with (Z.of_nat (S n)); [reflexivity|].
    unfold int_add. rewrite wrap_small; [lia|].
    unfold is_int, INT_MIN, INT_MAX. lia.
Qed.

(** C9 as written fails: the anchor of a spawned piece is
    ([BOARD_WIDTH / 2 - 2], 0) = (3, 0), not (4, 0). *)
Lemma spawn_anchor_is_not_4_0 :
  board (st (new_piece 0 init_game_state)) = empty_board /\
  current_piece (st (new_piece 0 init_game_state)) = shape_of 0 /\
  (current_x (st (new_piece 0 init_game_state)),
   current_y (st (new_piece 0 init_game_state))) = (3, 0) /\
  (current_x (st (new_piece 0 init_game_state)),
   current_y (st (new_piece 0 init_game_state))) <> (4, 0).
Proof. vm_compute. repeat split; congruence. Qed.

(** C9, with the anchor the program uses.  On an empty board the square
    piece is spawned with its anchor at (3, 0).  From there every Down key
    moves it one row lower as long as the anchor row is below 18; at anchor
    row 18 the piece lies in rows 18 and 19, [can_move(0, 1)] is false and
    the Down key changes nothing. *)
Theorem square_drops_to_row_18 (rnd : Z) (g : GameState) :
  board g = empty_board -> next_type g = 0 ->
  game_over g = false -> paused g = false ->
  let g0 := st (new_piece rnd g) in
  (current_x g0, current_y g0) = (3, 0) /\
  current_piece g0 = [(0, 0); (0, 1); (1, 0); (1, 1)] /\
  (forall n : nat, (n < 18)%nat ->
     let gn := Nat.iter n move_down g0 in
     current_y gn = Z.of_nat n /\
     can_move gn 0 1 = true /\
     move_down gn = set_current_y (Z.of_nat n + 1) gn) /\
  let g18 := Nat.iter 18 move_down g0 in
  (current_x g18, current_y g18) = (3, 18) /\
  map (fun o => int_add (current_y g18) (snd o)) (current_piece g18)
    = [18; 19; 18; 19] /\
  can_move g18 0 1 = false /\
  move_down g18 = g18.
Proof.
  intros Hb Ht Hg Hp g0.
  assert (current_piece g0 = [(0, 0); (0, 1); (1, 0); (1, 1)]) as Hpiece
    by (subst g0; simpl; by rewrite Ht).
  split; [reflexivity|]. split; [exact Hpiece|]. split.
  - intros n Hn gn. subst gn g0.
    rewrite (square_falls rnd g n) by (done || lia).
    split; [reflexivity|].
    rewrite square_can_fall, bool_decide_eq_true_2 by (done || lia).
    split; [reflexivity|].
    rewrite <- (square_falls rnd g n) by (done || lia).
    rewrite <- Nat.iter_succ.
    rewrite (square_falls rnd g (S n)), (square_falls rnd g n)
      by (done || lia).
    replace (Z.of_nat n + 1) with (Z.of_nat (S n)) by lia. reflexivity.
  - intros g18. subst g18 g0.
    rewrite (square_falls rnd g 18) by (done || lia).
    split; [reflexivity|]. split.
    + simpl in Hpiece |- *. rewrite Hpiece. reflexivity.
    + split.
      * by rewrite square_can_fall, bool_decide_eq_false_2 by (done || lia).
      * unfold move_down. rewrite key_press_playing by done.
        cbn [st]. unfold key_action.
        by rewrite square_can_fall, bool_decide_eq_false_2 by (done || lia).
Qed.

Lemma square_drops_to_row_18_witness :
  board init_game_state = empty_board /\
  next_type init_game_state = 0 /\
  game_over init_game_state = false /\
  paused init_game_state = false /\
  can_move (Nat.iter 17 move_down (st (new_piece 5 init_game_state))) 0 1
    = true /\
  can_move (Nat.iter 18 move_down (st (new_piece 5 init_game_state))) 0 1
    = false.
Proof.
  pose proof (square_drops_to_row_18 5 init_game_state
                eq_refl eq_refl eq_refl eq_refl)
    as (_ & _ & Hn & _ & _ & H18 & _).
  do 4 (split; [reflexivity|]).
  split; [apply (Hn 17%nat); lia | exact H18].
Defined.

(** ** C5: rotation *)

Lemma set_current_piece_same (g : GameState) :
  set_current_piece (current_piece g) g = g.
Proof. by destruct g. Qed.






(** ** Commands and ticks while paused or after the game is over *)

(** X18.  While the game is paused or over, a key other than [p] and a
    tick both leave the whole state as it is, make no library call and
    return [TRUE]: the tick returns the same value in the two states. *)
Theorem halted_game_ignores_input (rnd tid : Z) (k : Key) (g : GameState) :
  paused g = true \/ game_over g = true ->
  k <> GDK_KEY_p ->
  key_press (Some k) g = mkOut true g [] /\
  game_loop rnd tid g = mkOut true g [].
Proof.
  intros Hh Hk. split.
  - unfold key_press. destruct (game_over g) eqn:Hg; [reflexivity|].
    destruct Hh as [Hp|Hp]; [|discriminate].
    destruct k; try done; simpl; by rewrite Hp.
  - unfold game_loop. destruct Hh as [->| ->]; [reflexivity|].
    by rewrite orb_true_r.
Qed.

Lemma halted_game_ignores_input_witness :
  (paused (set_paused true stuck_game) = true \/
   game_over (set_paused true stuck_game) = true) /\
  GDK_KEY_Up <> GDK_KEY_p /\
  key_press (Some GDK_KEY_Up) (set_paused true stuck_game)
    = mkOut true (set_paused true stuck_game) [] /\
  game_loop 5 18 (set_paused true stuck_game)
    = mkOut true (set_paused true stuck_game) [].
Proof.
  assert (GDK_KEY_Up <> GDK_KEY_p) as Hk by discriminate.
  split; [left; reflexivity|]. split; [exact Hk|].
  exact (halted_game_ignores_input 5 18 GDK_KEY_Up
           (set_paused true stuck_game) (or_introl eq_refl) Hk).
Defined.

(** ** Writing a cell *)

Lemma row_at_lookup (b : list (list Z)) (y : Z) :
  grid_shaped b -> 0 <= y < BOARD_HEIGHT ->
  b !! Z.to_nat y = Some (row_at b y) /\
  length (row_at b y) = Z.to_nat BOARD_WIDTH.
Proof.
  intros [Hl Hw] Hy. unfold row_at.
  destruct (lookup_lt_is_Some_2 b (Z.to_nat y)) as [r Hr];
    [board_size; lia|].
  rewrite Hr. simpl. split; [done|].
  exact (Forall_lookup_1 _ _ _ _ Hw Hr).
Qed.

Lemma set_cell_shaped (b : list (list Z)) (y x v : Z) :
  grid_shaped b -> grid_shaped (set_cell b y x v).
Proof.
  intros [Hl Hw]. unfold set_cell, row_at.
  destruct (b !! Z.to_nat y) as [r|] eqn:Hr; simpl.
  - split; [by rewrite length_insert|].
    apply Forall_insert; [done|]. rewrite length_insert.
    exact (Forall_lookup_1 _ _ _ _ Hw Hr).
  - apply lookup_ge_None in Hr. by rewrite list_insert_ge.
Qed.

(** Reading back after [b[y][x] = v]. *)
Lemma cell_set_cell (b : list (list Z)) (y x v y' x' : Z) :
  grid_shaped b ->
  0 <= y < BOARD_HEIGHT -> 0 <= x < BOARD_WIDTH -> 0 <= y' -> 0 <= x' ->
  cell (set_cell b y x v) y' x' =
  if decide (y' = y /\ x' = x) then v else cell b y' x'.
Proof.
  intros Hb Hy Hx Hy' Hx'.
  destruct (row_at_lookup b y Hb Hy) as [Hr Hlr].
  assert (Z.to_nat y < length b)%nat by (by eapply lookup_lt_Some).
  unfold cell at 1. unfold row_at at 1. unfold set_cell.
  rewrite list_lookup_insert.
  destruct (decide (y' = y)) as [->|Hne].
  - rewrite decide_True by done. simpl. rewrite list_lookup_insert.
    destruct (decide (x' = x)) as [->|Hnx].
    + rewrite decide_True by (board_size; lia). by rewrite decide_True.
    + rewrite decide_False by lia. by rewrite decide_False by tauto.
  - rewrite decide_False by lia. by rewrite decide_False by tauto.
Qed.

(** ** Landing *)

Lemma land_block_spec (g : GameState) (b c : list (list Z)) (o : Z * Z) :
  grid_shaped b -> grid_shaped c ->
  grid_shaped (land_block g (b, c) o).1 /\
  grid_shaped (land_block g (b, c) o).2 /\
  forall x y : Z, 0 <= x < BOARD_WIDTH -> 0 <= y < BOARD_HEIGHT ->
    cell (land_block g (b, c) o).1 y x
      = (if decide ((x, y) = block_cell g o) then 1 else cell b y x) /\
    cell (land_block g (b, c) o).2 y x
      = (if decide ((x, y) = block_cell g o)
         then int_add (current_type g) 1 else cell c y x).
Proof.
  intros Hb Hc. unfold land_block, block_cell. cbn [fst snd].
  set (xo := int_add (current_x g) o.1).
  set (yo := int_add (current_y g) o.2).
  destruct ((yo >=? 0) && (xo >=? 0) && (xo <? BOARD_WIDTH)
            && (yo <? BOARD_HEIGHT)) eqn:Hin; cbn [fst snd].
  - assert (0 <= yo < BOARD_HEIGHT /\ 0 <= xo < BOARD_WIDTH) as [Hy Hx]
      by blia.
    split; [by apply set_cell_shaped|]. split; [by apply set_cell_shaped|].
    intros x y Hx' Hy'. rewrite !cell_set_cell by (done || lia).
    destruct (decide (y = yo /\ x = xo)) as [[-> ->]|Hne].
    + by case_decide.
    + case_decide as Heq; [|done]. injection Heq as -> ->. tauto.
  - split; [done|]. split; [done|]. intros x y Hx' Hy'.
    case_decide as Heq; [|done]. injection Heq as -> ->. blia.
Qed.

Lemma land_blocks_spec (g : GameState) (l : list (Z * Z)) :
  forall b c : list (list Z),
  grid_shaped b -> grid_shaped c ->
  grid_shaped (fold_left (land_block g) l (b, c)).1 /\
  grid_shaped (fold_left (land_block g) l (b, c)).2 /\
  forall x y : Z, 0 <= x < BOARD_WIDTH -> 0 <= y < BOARD_HEIGHT ->
    cell (fold_left (land_block g) l (b, c)).1 y x
      = (if decide ((x, y) ∈ map (block_cell g) l) then 1 else cell b y x) /\
    cell (fold_left (land_block g) l (b, c)).2 y x
      = (if decide ((x, y) ∈ map (block_cell g) l)
         then int_add (current_type g) 1 else cell c y x).
Proof.
  induction l as [|o l IH]; intros b c Hb Hc.
  - split; [done|]. split; [done|]. intros x y _ _.
    cbn [map]. case_decide as Hin; [by apply not_elem_of_nil in Hin|done].
  - cbn [fold_left].
    destruct (land_block_spec g b c o Hb Hc) as (Hb1 & Hc1 & H1).
    destruct (land_block g (b, c) o) as [b1 c1]. cbn [fst snd] in *.
    destruct (IH b1 c1 Hb1 Hc1) as (Hb2 & Hc2 & H2).
    split; [done|]. split; [done|]. intros x y Hx Hy.
    destruct (H1 x y Hx Hy) as [E1 E1']. destruct (H2 x y Hx Hy) as [E2 E2'].
    rewrite E2, E2', E1, E1'. cbn [map].
    destruct (decide ((x, y) ∈ block_cell g o :: map (block_cell g) l))
      as [Hin|Hin]; rewrite elem_of_cons in Hin;
      destruct (decide ((x, y) ∈ map (block_cell g) l)) as [Hl|Hl];
      destruct (decide ((x, y) = block_cell g o)) as [Ho|Ho];
      done || tauto.
Qed.

(** [land_piece] writes [1] and the colour index [current_type + 1] at the
    cells of the piece that lie on the board, and nothing else. *)
Lemma land_piece_cells (g : GameState) :
  grid_shaped (board g) -> grid_shaped (board_colors g) ->
  grid_shaped (board (land_piece g)) /\
  grid_shaped (board_colors (land_piece g)) /\
  forall x y : Z, 0 <= x < BOARD_WIDTH -> 0 <= y < BOARD_HEIGHT ->
    cell (board (land_piece g)) y x
      = (if decide ((x, y) ∈ landing_cells g) then 1
         else cell (board g) y x) /\
    cell (board_colors (land_piece g)) y x
      = (if decide ((x, y) ∈ landing_cells g)
         then int_add (current_type g) 1 else cell (board_colors g) y x).
Proof.
  intros Hb Hc. unfold land_piece, landing_cells.
  cbn [board board_colors set_boards].
  by apply land_blocks_spec.
Qed.

Lemma clear_lines_rows (tid : Z) (g : GameState) :
  grid_shaped (board g) -> grid_shaped (board_colors g) ->
  lines_cleared g = Z.of_nat (full_rows (board g)) /\
  board (st (clear_lines tid g))
    = replicate (full_rows (board g)) zero_row ++ kept_rows (board g) /\
  board_colors (st (clear_lines tid g))
    = replicate (full_rows (board g)) zero_row
      ++ kept_colors (board g) (board_colors g).
Proof.
  intros [Hb _] [Hc _]. destruct (clear_lines_boards tid g) as [Eb Ec].
  unfold lines_cleared. rewrite Eb, Ec, (clear_scan_board _ _ Hb Hc). done.
Qed.

(** ** What [clear_lines] and [new_piece] leave *)

Lemma clear_lines_fields (tid : Z) (g : GameState) :
  let g' := st (clear_lines tid g) in
  score g' = score_sum g /\
  level g' = (if levels_up g then int_add (level g) 1 else level g) /\
  game_speed g' = (if levels_up g then int_div 500 (int_add (level g) 1)
                   else game_speed g) /\
  timeout_id g' = (if levels_up g then tid else timeout_id g) /\
  score_text g' = score_line (score_sum g) (level g) /\
  calls (clear_lines tid g) =
    gtk_label_set_text score_label (score_line (score_sum g) (level g))
    :: (if levels_up g
        then [g_source_remove (timeout_id g);
              g_timeout_add (int_div 500 (int_add (level g) 1))]
        else []) /\
  (current_x g', current_y g', current_piece g', current_type g',
   next_type g', game_over g', paused g')
  = (current_x g, current_y g, current_piece g, current_type g,
     next_type g, game_over g, paused g).
Proof.
  intros g'. subst g'. rewrite clear_lines_eq. fold (levels_up g).
  destruct (clear_scan _ _ _ _) as [[lines b] c].
  by destruct (levels_up g).
Qed.

Lemma new_piece_fields (rnd : Z) (g : GameState) :
  let g' := st (new_piece rnd g) in
  current_type g' = next_type g /\ next_type g' = rnd /\
  (current_x g', current_y g') = (3, 0) /\
  current_piece g' = shape_of (next_type g) /\
  (board g', board_colors g', score g', level g', game_speed g',
   score_text g', game_over g', paused g', timeout_id g')
  = (board g, board_colors g, score g, level g, game_speed g,
     score_text g, game_over g, paused g, timeout_id g) /\
  calls (new_piece rnd g) = [gtk_widget_queue_draw preview_area].
Proof. by repeat split. Qed.

Lemma int_add_small (a b : Z) : is_int (a + b) -> int_add a b = a + b.
Proof. apply wrap_small. Qed.

(** ** The tick that lands the piece *)

(** X17.  In a running game whose piece cannot move down, [game_loop]
    (1) writes [1] and the colour index [current_type + 1] at the cells of
    the piece and changes nothing else of the two arrays, (2) runs
    [clear_lines] on the result, which removes the full rows, adds the
    points and, if the level goes up, calls [g_source_remove] and
    [g_timeout_add], then (3) spawns the saved next type at (3, 0) and
    stores the new random type, and (4) sets [game_over] and returns
    [FALSE] exactly when [can_move(0, 0)] fails for the spawned piece;
    otherwise it returns [TRUE] with [game_over] still clear. *)
Theorem tick_lands_piece (rnd tid : Z) (g : GameState) :
  paused g = false -> game_over g = false -> can_move g 0 1 = false ->
  grid_shaped (board g) -> grid_shaped (board_colors g) ->
  0 <= current_type g <= 6 ->
  let g1 := land_piece g in
  let o2 := clear_lines tid g1 in
  let o3 := new_piece rnd (st o2) in
  let fits := can_move (st o3) 0 0 in
  (* commit *)
  (forall x y : Z, 0 <= x < BOARD_WIDTH -> 0 <= y < BOARD_HEIGHT ->
     cell (board g1) y x
       = (if decide ((x, y) ∈ landing_cells g) then 1
          else cell (board g) y x) /\
     cell (board_colors g1) y x
       = (if decide ((x, y) ∈ landing_cells g) then current_type g + 1
          else cell (board_colors g) y x)) /\
  g1 = set_boards (board g1) (board_colors g1) g /\
  (* line clearing, score, level *)
  board (st o2)
    = replicate (full_rows (board g1)) zero_row ++ kept_rows (board g1) /\
  score (st o2)
    = int_add (score g)
        (int_mul (int_mul (Z.of_nat (full_rows (board g1))) 100) (level g)) /\
  level (st o2)
    = (if levels_up g1 then int_add (level g) 1 else level g) /\
  calls o2
    = gtk_label_set_text score_label (score_text (st o2))
      :: (if levels_up g1
          then [g_source_remove (timeout_id g);
                g_timeout_add (game_speed (st o2))]
          else []) /\
  (* spawn *)
  current_type (st o3) = next_type g /\
  next_type (st o3) = rnd /\
  (current_x (st o3), current_y (st o3)) = (3, 0) /\
  current_piece (st o3) = shape_of (next_type g) /\
  (board (st o3), board_colors (st o3), score (st o3), level (st o3))
  = (board (st o2), board_colors (st o2), score (st o2), level (st o2)) /\
  (* outcome *)
  game_loop rnd tid g
  = mkOut fits (if fits then st o3 else set_game_over true (st o3))
      (calls o2 ++ calls o3 ++ [gtk_widget_queue_draw drawing_area]) /\
  (game_over (st (game_loop rnd tid g)) = true <-> fits = false) /\
  (ret (game_loop rnd tid g) = false <-> fits = false).
Proof.
  intros Hp Hg Hm Hb Hc Ht g1 o2 o3 fits.
  destruct (land_piece_cells g Hb Hc) as (Hb1 & Hc1 & Hcells).
  destruct (clear_lines_fields tid g1)
    as (Hs & Hl & Hsp & Hti & Htx & Hcalls & Hrest).
  fold o2 in Hs, Hl, Hsp, Hti, Htx, Hcalls, Hrest.
  destruct (clear_lines_rows tid g1 Hb1 Hc1) as (Hk & Hbo & _).
  fold o2 in Hbo.
  assert (game_loop rnd tid g
          = mkOut fits (if fits then st o3 else set_game_over true (st o3))
              (calls o2 ++ calls o3 ++ [gtk_widget_queue_draw drawing_area]))
    as Hloop.
  { unfold game_loop. rewrite Hp, Hg, Hm. cbn [orb].
    fold g1. fold o2. fold o3. fold fits. by destruct fits. }
  split.
  { intros x y Hx Hy. destruct (Hcells x y Hx Hy) as [E1 E2].
    fold g1 in E1, E2. rewrite E1, E2.
    by rewrite int_add_small by (unfold is_int, INT_MIN, INT_MAX; lia). }
  split; [reflexivity|].
  split; [exact Hbo|].
  split.
  { rewrite Hs. unfold score_sum, lines_cleared.
    fold (lines_cleared g1). rewrite Hk. reflexivity. }
  split; [exact Hl|].
  split.
  { rewrite Hcalls, Htx, Hsp. by destruct (levels_up g1). }
  injection Hrest as _ _ _ _ Hnt Hgo _.
  change (next_type g1) with (next_type g) in Hnt.
  change (game_over g1) with (game_over g) in Hgo.
  split; [exact Hnt|].
  split; [reflexivity|].
  split; [reflexivity|].
  split; [change (current_piece (st o3)) with (shape_of (next_type (st o2)));
          by rewrite Hnt|].
  split; [reflexivity|].
  split; [exact Hloop|].
  rewrite Hloop. cbn [st ret].
  change (game_over (st o3)) with (game_over (st o2)).
  rewrite Hg in Hgo.
  destruct fits.
  - change (game_over (st o3)) with (game_over (st o2)). rewrite Hgo.
    split; split; intros; congruence.
  - cbn [game_over set_game_over]. split; split; intros; congruence.
Qed.

Lemma tick_lands_piece_witness :
  paused gap_game = false /\ game_over gap_game = false /\
  can_move gap_game 0 1 = false /\
  grid_shaped (board gap_game) /\ grid_shaped (board_colors gap_game) /\
  0 <= current_type gap_game <= 6 /\
  full_rows (board (land_piece gap_game)) = 1%nat /\
  score (st (clear_lines 18 (land_piece gap_game)))
  = int_add (score gap_game)
      (int_mul (int_mul (Z.of_nat (full_rows (board (land_piece gap_game))))
                  100) (level gap_game)) /\
  (ret (game_loop 2 18 gap_game) = false <->
   can_move (st (new_piece 2 (st (clear_lines 18 (land_piece gap_game)))))
     0 0 = false).
Proof.
  assert (grid_shaped (board gap_game)) as Hb
    by (split; [reflexivity | repeat constructor]).
  assert (grid_shaped (board_colors gap_game)) as Hc
    by (split; [reflexivity | repeat constructor]).
  assert (0 <= current_type gap_game <= 6) as Ht by (simpl; lia).
  pose proof (tick_lands_piece 2 18 gap_game eq_refl eq_refl eq_refl Hb Hc Ht)
    as H.
  cbv zeta in H.
  destruct H as (_ & _ & _ & Hs & _ & _ & _ & _ & _ & _ & _ & _ & _ & Hr).
  do 3 (split; [reflexivity|]).
  split; [exact Hb|]. split; [exact Hc|]. split; [exact Ht|].
  split; [reflexivity|]. split; [exact Hs | exact Hr].
Defined.

(** ** Reachable states *)

Lemma game_inv_core (g g' : GameState) :
  core g' = core g -> game_inv g -> game_inv g'.
Proof.
  unfold core, game_inv. intros [= -> -> -> -> -> ->]. done.
Qed.

Lemma cells_ok_zero_row : Forall2 cell_ok zero_row zero_row.
Proof. repeat constructor; lia. Qed.

Lemma zero_board_shaped :
  grid_shaped (replicate (Z.to_nat BOARD_HEIGHT) zero_row).
Proof. split; [reflexivity | repeat constructor]. Qed.

Lemma cells_ok_zero_board :
  cells_ok (replicate (Z.to_nat BOARD_HEIGHT) zero_row)
           (replicate (Z.to_nat BOARD_HEIGHT) zero_row).
Proof. apply Forall2_replicate, cells_ok_zero_row. Qed.

Lemma game_inv_init : game_inv init_game_state.
Proof.
  unfold game_inv. cbn.
  split; [apply zero_board_shaped|]. split; [apply zero_board_shaped|].
  split; [apply cells_ok_zero_board|]. repeat split; lia.
Qed.

Lemma cells_ok_row_at (b c : list (list Z)) (y : Z) :
  cells_ok b c -> Forall2 cell_ok (row_at b y) (row_at c y).
Proof.
  intros H. unfold row_at.
  pose proof (proj1 (Forall2_lookup _ _ _) H (Z.to_nat y)) as Hy.
  destruct Hy; simpl; [done | constructor].
Qed.

Lemma cells_ok_set_cell (b c : list (list Z)) (y x v w : Z) :
  cells_ok b c -> cell_ok v w ->
  cells_ok (set_cell b y x v) (set_cell c y x w).
Proof.
  intros H Hvw. unfold set_cell.
  apply Forall2_insert; [done|].
  apply Forall2_insert; [by apply cells_ok_row_at | done].
Qed.

Lemma cells_ok_land_piece (g : GameState) :
  0 <= current_type g <= 6 ->
  cells_ok (board g) (board_colors g) ->
  cells_ok (board (land_piece g)) (board_colors (land_piece g)).
Proof.
  intros Ht. unfold land_piece. cbn [board board_colors set_boards].
  generalize (board g) (board_colors g).
  induction (current_piece g) as [|o l IH]; intros b c H; [done|].
  cbn [fold_left]. unfold land_block at 2 4. cbn [fst snd].
  destruct (_ && _); [|by apply IH].
  apply IH, cells_ok_set_cell; [done|].
  rewrite int_add_small by (unfold is_int, INT_MIN, INT_MAX; lia).
  unfold cell_ok. lia.
Qed.

Lemma cells_ok_kept (b c : list (list Z)) :
  cells_ok b c -> cells_ok (kept_rows b) (kept_colors b c).
Proof.
  induction 1 as [|r rc b c Hr Hb IH]; [constructor|].
  rewrite kept_rows_cons, kept_colors_cons.
  destruct (row_is_full r); [done|]. by constructor.
Qed.

Lemma kept_rows_width (b : list (list Z)) :
  Forall (fun r => length r = Z.to_nat BOARD_WIDTH) b ->
  Forall (fun r => length r = Z.to_nat BOARD_WIDTH) (kept_rows b).
Proof.
  induction 1 as [|r b Hr Hb IH]; [constructor|].
  rewrite kept_rows_cons. destruct (row_is_full r); [done|]. by constructor.
Qed.

Lemma kept_colors_width (b c : list (list Z)) :
  length c = length b ->
  Forall (fun r => length r = Z.to_nat BOARD_WIDTH) c ->
  Forall (fun r => length r = Z.to_nat BOARD_WIDTH) (kept_colors b c).
Proof.
  intros Hl Hc. revert b Hl.
  induction Hc as [|rc c Hr Hc IH]; intros [|r b] Hl; try done.
  rewrite kept_colors_cons.
  destruct (row_is_full r); [apply IH | constructor; [done | apply IH]];
    simpl in Hl; lia.
Qed.

Lemma cleared_shaped (b c : list (list Z)) :
  grid_shaped b -> grid_shaped c ->
  grid_shaped (replicate (full_rows b) zero_row ++ kept_rows b) /\
  grid_shaped (replicate (full_rows b) zero_row ++ kept_colors b c).
Proof.
  intros [Hb Hbw] [Hc Hcw].
  pose proof (length_kept_rows b) as Hk.
  pose proof (length_kept_colors b c ltac:(lia)) as Hkc.
  split; (split;
    [rewrite length_app, length_replicate; lia
    |apply Forall_app; split; [by apply Forall_replicate|]]).
  - by apply kept_rows_width.
  - apply kept_colors_width; [lia | done].
Qed.

Lemma int_div_500 (l : Z) : 1 <= l <= 10 -> int_div 500 l = 500 / l.
Proof.
  intros Hl. unfold int_div. rewrite Z.quot_div_nonneg by lia.
  apply wrap_small. unfold is_int, INT_MIN, INT_MAX.
  pose proof (Z.div_pos 500 l ltac:(lia) ltac:(lia)).
  pose proof (Z.div_le_upper_bound 500 l 500 ltac:(lia) ltac:(nia)). lia.
Qed.

Lemma game_inv_land_piece (g : GameState) :
  game_inv g -> game_inv (land_piece g).
Proof.
  intros (Hb & Hc & Hok & Ht & Hrest).
  destruct (land_piece_cells g Hb Hc) as (Hb1 & Hc1 & _).
  split; [done|]. split; [done|].
  split; [by apply cells_ok_land_piece | done].
Qed.

Lemma game_inv_clear_lines (tid : Z) (g : GameState) :
  game_inv g -> game_inv (st (clear_lines tid g)).
Proof.
  intros (Hb & Hc & Hok & Ht & Hn & Hl & Hs).
  destruct (clear_lines_rows tid g Hb Hc) as (_ & Eb & Ec).
  destruct (cleared_shaped _ _ Hb Hc) as [Hb1 Hc1].
  destruct (clear_lines_fields tid g)
    as (_ & El & Es & _ & _ & _ & Er).
  injection Er as _ _ _ Et En _ _.
  unfold game_inv. rewrite Eb, Ec, El, Es, Et, En.
  split; [done|]. split; [done|].
  split.
  { apply Forall2_app; [|by apply cells_ok_kept].
    apply Forall2_replicate, cells_ok_zero_row. }
  split; [done|]. split; [done|].
  destruct (levels_up g) eqn:Hup; [|done].
  apply andb_true_iff in Hup as [_ Hlt]. unfold MAX_LEVEL in Hlt.
  rewrite int_add_small by (unfold is_int, INT_MIN, INT_MAX; lia).
  split; [lia|]. apply int_div_500. lia.
Qed.

Lemma game_inv_new_piece (rnd : Z) (g : GameState) :
  0 <= rnd < 7 -> game_inv g -> game_inv (st (new_piece rnd g)).
Proof.
  intros Hr (Hb & Hc & Hok & Ht & Hn & Hl & Hs).
  unfold game_inv.
  cbn [st new_piece board board_colors current_type next_type level
       game_speed set_current_type set_next_type set_current_x
       set_current_y set_current_piece].
  do 3 (split; [done|]). repeat split; done || lia.
Qed.

Lemma toggle_pause_core (g : GameState) :
  core (st (toggle_pause g)) = core g.
Proof. unfold toggle_pause. by destruct (game_over g). Qed.

Lemma key_action_core (k : Key) (g : GameState) :
  core (key_action k g) = core g.
Proof.
  unfold key_action.
  destruct k; try done; by destruct (can_move _ _ _).
Qed.

Lemma key_press_core (event : option Key) (g : GameState) :
  core (st (key_press event g)) = core g.
Proof.
  unfold key_press. destruct event as [k|]; [|done].
  destruct (game_over g) eqn:Hg; [done|].
  assert (core (st (match k with
                    | GDK_KEY_p => toggle_pause g
                    | _ => mkOut tt g []
                    end)) = core g) as Ho
    by (destruct k; try done; apply toggle_pause_core).
  destruct (paused _); cbn [st]; [done|].
  by rewrite key_action_core.
Qed.

Lemma game_inv_set_game_over (v : bool) (g : GameState) :
  game_inv g -> game_inv (set_game_over v g).
Proof. intros H. exact H. Qed.

Lemma game_inv_set_current_y (v : Z) (g : GameState) :
  game_inv g -> game_inv (set_current_y v g).
Proof. intros H. exact H. Qed.

Lemma game_inv_game_loop (rnd tid : Z) (g : GameState) :
  0 <= rnd < 7 -> game_inv g -> game_inv (st (game_loop rnd tid g)).
Proof.
  intros Hr Hg. unfold game_loop.
  destruct (paused g || game_over g); [exact Hg|].
  destruct (can_move g 0 1);
    [cbn [st]; by apply game_inv_set_current_y|].
  pose proof (game_inv_new_piece rnd _ Hr
                (game_inv_clear_lines tid _ (game_inv_land_piece _ Hg)))
    as H.
  destruct (negb _); cbn [st]; [|exact H].
  apply game_inv_set_game_over, H.
Qed.

Lemma game_inv_start_new_game (rnd tid : Z) (g : GameState) :
  0 <= rnd < 7 -> game_inv (st (start_new_game rnd tid g)).
Proof.
  intros Hr. unfold start_new_game. cbn [st].
  apply game_inv_new_piece; [done|].
  set (g3 := set_score_text _ _).
  apply (game_inv_core init_game_state g3); [|exact game_inv_init].
  unfold core. reflexivity.
Qed.

Lemma game_inv_main (rnd1 rnd2 tid : Z) :
  0 <= rnd1 < 7 -> 0 <= rnd2 < 7 ->
  game_inv (st (main_setup rnd1 rnd2 tid)).
Proof.
  intros H1 H2. unfold main_setup. cbn [st].
  set (g2 := st (new_piece rnd2 (set_next_type rnd1 init_game_state))).
  apply (game_inv_core g2 (set_timeout_id tid g2)); [reflexivity|].
  subst g2. apply game_inv_new_piece; [done|].
  destruct game_inv_init as (Hb & Hc & Hok & Ht & Hn & Hl & Hs).
  unfold game_inv.
  cbn [board board_colors current_type next_type level game_speed
       set_next_type].
  do 3 (split; [done|]). repeat split; done || lia.
Qed.

(** Every reachable state satisfies [game_inv]. *)
Lemma reachable_inv (g : GameState) : reachable g -> game_inv g.
Proof.
  induction 1 as [rnd1 rnd2 tid H1 H2 | e g Hg IH He].
  - by apply game_inv_main.
  - destruct e as [rnd tid | | event | rnd tid]; cbn [handle random_ok] in *.
    + by apply game_inv_start_new_game.
    + by apply (game_inv_core g); [apply toggle_pause_core|].
    + by apply (game_inv_core g); [apply key_press_core|].
    + by apply game_inv_game_loop.
Qed.

(** A run from a reachable state ends in a reachable state. *)
Lemma reachable_run (es : list Event) (g : GameState) :
  forallb event_ok es = true -> reachable g -> reachable (run es g).
Proof.
  revert g. induction es as [|e es IH]; intros g Hes Hg; [exact Hg|].
  cbn [forallb] in Hes. apply andb_true_iff in Hes as [He Hes].
  apply (IH (handle e g) Hes). apply reach_step; [exact Hg|].
  destruct e; cbn in *; try exact I; lia.
Qed.

Lemma ledge_game_reachable : reachable ledge_game.
Proof.
  replace ledge_game with (run sweep_run (st (main_setup 0 0 1)))
    by (vm_compute; reflexivity).
  apply reachable_run; [vm_compute; reflexivity|]. apply reach_main; lia.
Qed.

Lemma swept_game_reachable : reachable swept_game.
Proof. apply reach_step; [exact ledge_game_reachable|]. cbn. lia. Qed.

(** ** C8: occupancy flags and colour indices *)

Lemma cells_ok_cell (b c : list (list Z)) (y x : Z) :
  cells_ok b c -> cell_ok (cell b y x) (cell c y x).
Proof.
  intros H. unfold cell.
  pose proof (proj1 (Forall2_lookup _ _ _) (cells_ok_row_at b c y H)
                (Z.to_nat x)) as Hx.
  destruct Hx; simpl; [done|]. unfold cell_ok. lia.
Qed.

Lemma cells_ok_pointwise (b c : list (list Z)) :
  grid_shaped b -> grid_shaped c ->
  (forall x y : Z, 0 <= x < BOARD_WIDTH -> 0 <= y < BOARD_HEIGHT ->
     cell_ok (cell b y x) (cell c y x)) ->
  cells_ok b c.
Proof.
  intros [Hb Hbw] [Hc Hcw] H.
  apply Forall2_same_length_lookup_2; [congruence|].
  intros i r rc Hr Hrc.
  assert (i < length b)%nat as Hi by (by eapply lookup_lt_Some).
  pose proof (Forall_lookup_1 _ _ _ _ Hbw Hr) as Hlr.
  pose proof (Forall_lookup_1 _ _ _ _ Hcw Hrc) as Hlrc.
  cbv beta in Hlr, Hlrc.
  apply Forall2_same_length_lookup_2; [congruence|].
  intros j v w Hv Hw.
  assert (j < length r)%nat as Hj by (by eapply lookup_lt_Some).
  specialize (H (Z.of_nat j) (Z.of_nat i) ltac:(blia) ltac:(blia)).
  unfold cell, row_at in H. rewrite !Nat2Z.id, Hr, Hrc in H. simpl in H.
  by rewrite Hv, Hw in H.
Qed.

Lemma board_ok_clear_lines (tid : Z) (g : GameState) :
  grid_shaped (board g) -> grid_shaped (board_colors g) -> board_ok g ->
  grid_shaped (board (st (clear_lines tid g))) /\
  grid_shaped (board_colors (st (clear_lines tid g))) /\
  board_ok (st (clear_lines tid g)).
Proof.
  intros Hb Hc Hok.
  destruct (clear_lines_rows tid g Hb Hc) as (_ & Eb & Ec).
  destruct (cleared_shaped _ _ Hb Hc) as [Hb1 Hc1].
  rewrite Eb, Ec. split; [done|]. split; [done|].
  intros x y _ _. rewrite Eb, Ec. apply cells_ok_cell.
  apply Forall2_app; [apply Forall2_replicate, cells_ok_zero_row|].
  by apply cells_ok_kept, cells_ok_pointwise.
Qed.

Lemma board_ok_land_piece (g : GameState) :
  grid_shaped (board g) -> grid_shaped (board_colors g) ->
  0 <= current_type g <= 6 -> board_ok g ->
  grid_shaped (board (land_piece g)) /\
  grid_shaped (board_colors (land_piece g)) /\
  board_ok (land_piece g) /\
  forall x y : Z, 0 <= x < BOARD_WIDTH -> 0 <= y < BOARD_HEIGHT ->
    cell (board_colors (land_piece g)) y x = cell (board_colors g) y x \/
    cell (board_colors (land_piece g)) y x = current_type g + 1.
Proof.
  intros Hb Hc Ht Hok.
  destruct (land_piece_cells g Hb Hc) as (Hb1 & Hc1 & Hcells).
  assert (int_add (current_type g) 1 = current_type g + 1) as Hadd
    by (apply int_add_small; unfold is_int, INT_MIN, INT_MAX; lia).
  split; [done|]. split; [done|]. split.
  - intros x y Hx Hy. destruct (Hcells x y Hx Hy) as [E1 E2].
    rewrite E1, E2, Hadd. case_decide; [|by apply Hok].
    unfold cell_ok. lia.
  - intros x y Hx Hy. destruct (Hcells x y Hx Hy) as [_ E2].
    rewrite E2, Hadd. case_decide; auto.
Qed.

(** C8.  In every reachable state the two arrays have their shape, every
    cell has its flag set exactly when its colour index is not zero, with
    the index in [0 .. 7], and the type of the active piece is in
    [0 .. 6].  [land_piece] keeps this and writes no colour index other
    than [current_type + 1]; [clear_lines] keeps it; the reset of
    [init_game_state] and [start_new_game] establishes it. *)
Theorem board_cells_invariant :
  (forall g : GameState, reachable g ->
     grid_shaped (board g) /\ grid_shaped (board_colors g) /\
     board_ok g /\ 0 <= current_type g <= 6) /\
  (forall g : GameState,
     grid_shaped (board g) -> grid_shaped (board_colors g) ->
     0 <= current_type g <= 6 -> board_ok g ->
     board_ok (land_piece g) /\
     forall x y : Z, 0 <= x < BOARD_WIDTH -> 0 <= y < BOARD_HEIGHT ->
       cell (board_colors (land_piece g)) y x = cell (board_colors g) y x \/
       cell (board_colors (land_piece g)) y x = current_type g + 1) /\
  (forall (tid : Z) (g : GameState),
     grid_shaped (board g) -> grid_shaped (board_colors g) ->
     board_ok g -> board_ok (st (clear_lines tid g))) /\
  board_ok init_game_state /\
  (forall (rnd tid : Z) (g : GameState),
     board_ok (st (start_new_game rnd tid g))).
Proof.
  split; [|split; [|split; [|split]]].
  - intros g Hg. destruct (reachable_inv g Hg) as (Hb & Hc & Hok & Ht & _).
    do 2 (split; [done|]). split; [|done].
    intros x y _ _. by apply cells_ok_cell.
  - intros g Hb Hc Ht Hok.
    by destruct (board_ok_land_piece g Hb Hc Ht Hok) as (_ & _ & H1 & H2).
  - intros tid g Hb Hc Hok.
    by destruct (board_ok_clear_lines tid g Hb Hc Hok) as (_ & _ & H).
  - intros x y _ _. apply cells_ok_cell, cells_ok_zero_board.
  - intros rnd tid g x y _ _. apply cells_ok_cell, cells_ok_zero_board.
Qed.

Lemma board_cells_invariant_witness :
  reachable ledge_game /\
  (cell (board ledge_game) 19 0, cell (board_colors ledge_game) 19 0)
  = (1, 1) /\
  (cell (board ledge_game) 16 8, cell (board_colors ledge_game) 16 8)
  = (1, 2) /\
  (cell (board ledge_game) 16 9, cell (board_colors ledge_game) 16 9)
  = (0, 0) /\
  board_ok ledge_game /\ 0 <= current_type ledge_game <= 6 /\
  board_ok (land_piece ledge_game) /\
  (cell (board_colors (land_piece ledge_game)) 16 9
   = cell (board_colors ledge_game) 16 9 \/
   cell (board_colors (land_piece ledge_game)) 16 9
   = current_type ledge_game + 1) /\
  cell (board_colors (land_piece ledge_game)) 16 9 = 2 /\
  full_rows (board (land_piece ledge_game)) = 2%nat /\
  board_ok (st (clear_lines 2 (land_piece ledge_game))) /\
  board_ok (st (start_new_game 3 2 ledge_game)).
Proof.
  pose proof ledge_game_reachable as Hr.
  destruct board_cells_invariant as (Hreach & Hland & Hclear & _ & Hnew).
  destruct (Hreach _ Hr) as (Hb & Hc & Hok & Ht).
  destruct (Hland _ Hb Hc Ht Hok) as [Hok1 Hcol].
  assert (grid_shaped (board (land_piece ledge_game))) as Hb1
    by (split; [reflexivity | repeat constructor]).
  assert (grid_shaped (board_colors (land_piece ledge_game))) as Hc1
    by (split; [reflexivity | repeat constructor]).
  split; [exact Hr|]. do 3 (split; [reflexivity|]).
  split; [exact Hok|]. split; [exact Ht|]. split; [exact Hok1|].
  split; [apply Hcol; unfold BOARD_WIDTH, BOARD_HEIGHT; lia|].
  do 2 (split; [reflexivity|]).
  split; [exact (Hclear 2 _ Hb1 Hc1 Hok1) | apply Hnew].
Defined.

(** ** C6: level and tick period *)

Lemma levels_up_iff (tid : Z) (g : GameState) :
  1 <= level g <= 10 ->
  levels_up g = true <->
  score (st (clear_lines tid g)) >= level g * LEVEL_THRESHOLD
  /\ level g < MAX_LEVEL.
Proof.
  intros Hl. rewrite clear_lines_score. unfold levels_up, int_mul.
  rewrite wrap_small
    by (unfold is_int, INT_MIN, INT_MAX, LEVEL_THRESHOLD; lia).
  rewrite andb_true_iff. lia.
Qed.

(** C6.  In every reachable state the level is in [1 .. 10] and the tick
    period is [500 / level].  For a level in [1 .. 10], [clear_lines]
    raises the level, by one, exactly when the score it has just updated
    is at least [level * 5000] and the level is below 10; it then sets the
    period to [500 / level] for the new level, removes the timer and adds
    one with that period.  Otherwise level, period and timer stay.  Keys
    and the pause button never change the level, and a tick changes it
    only through [clear_lines]. *)
Theorem level_progression :
  (forall g : GameState, reachable g ->
     1 <= level g <= 10 /\ game_speed g = 500 / level g) /\
  (forall (tid : Z) (g : GameState),
     1 <= level g <= 10 ->
     let g' := st (clear_lines tid g) in
     let up := score g' >= level g * LEVEL_THRESHOLD
               /\ level g < MAX_LEVEL in
     (up ->
      level g' = level g + 1 /\
      game_speed g' = 500 / level g' /\
      timeout_id g' = tid /\
      calls (clear_lines tid g)
      = [gtk_label_set_text score_label (score_text g');
         g_source_remove (timeout_id g);
         g_timeout_add (500 / level g')]) /\
     (~ up ->
      level g' = level g /\
      game_speed g' = game_speed g /\
      timeout_id g' = timeout_id g /\
      calls (clear_lines tid g)
      = [gtk_label_set_text score_label (score_text g')]) /\
     1 <= level g' <= 10) /\
  (forall (event : option Key) (g : GameState),
     level (st (key_press event g)) = level g) /\
  (forall g : GameState, level (st (toggle_pause g)) = level g) /\
  (forall (rnd tid : Z) (g : GameState),
     level (st (game_loop rnd tid g)) = level g \/
     level (st (game_loop rnd tid g))
     = level (st (clear_lines tid (land_piece g)))).
Proof.
  split; [|split; [|split; [|split]]].
  - intros g Hg. by destruct (reachable_inv g Hg) as (_ & _ & _ & _ & _ & H).
  - intros tid g Hl g' up.
    pose proof (levels_up_iff tid g Hl) as Hup. fold g' in Hup. fold up in Hup.
    destruct (clear_lines_fields tid g)
      as (_ & El & Es & Et & Ex & Ec & _).
    fold g' in El, Es, Et, Ex.
    destruct (levels_up g).
    + assert (up) as [Hs Hlt] by (by apply Hup).
      unfold MAX_LEVEL in Hlt.
      rewrite int_add_small in El, Es, Ec
        by (unfold is_int, INT_MIN, INT_MAX; lia).
      rewrite int_div_500 in Es, Ec by lia.
      split; [|split; [intros Hn; contradict Hn; by apply Hup | lia]].
      intros _. rewrite El, Es, Et, Ec, Ex. done.
    + assert (~ up) as Hn by (intros H; by apply Hup in H).
      split; [done|]. split; [|lia].
      intros _. rewrite El, Es, Et, Ec, Ex. done.
  - intros event g. pose proof (key_press_core event g) as H.
    by injection H.
  - intros g. pose proof (toggle_pause_core g) as H. by injection H.
  - intros rnd tid g. unfold game_loop.
    destruct (paused g || game_over g); [by left|].
    destruct (can_move g 0 1); [by left|].
    right. by destruct (negb _).
Qed.

Lemma level_progression_witness :
  1 <= level demo_game <= 10 /\
  level (st (clear_lines 18 (set_score 4900 demo_game))) = 2 /\
  game_speed (st (clear_lines 18 (set_score 4900 demo_game))) = 250 /\
  1 <= level (st (clear_lines 18 (set_score 4900 demo_game))) <= 10.
Proof.
  assert (1 <= level (set_score 4900 demo_game) <= 10) as Hl
    by (simpl; lia).
  destruct (proj1 (proj2 level_progression) 18 (set_score 4900 demo_game) Hl)
    as (Hup & _ & Hr).
  split; [exact Hl|]. split; [reflexivity|]. split; [reflexivity|]. exact Hr.
Defined.

(** * Further properties *)

(** ** Wrap-around and displacement *)

Lemma wrap_add_l (a b : Z) : wrap (wrap a + b) = wrap (a + b).
Proof.
  unfold wrap. f_equal.
  replace ((a + 2 ^ 31) mod 2 ^ 32 - 2 ^ 31 + b + 2 ^ 31)
    with ((a + 2 ^ 31) mod 2 ^ 32 + b) by ring.
  rewrite Zplus_mod_idemp_l. f_equal. ring.
Qed.

Lemma int_add_shift (x d o : Z) :
  int_add (int_add (int_add x d) o) 0 = int_add (int_add x o) d.
Proof.
  unfold int_add. rewrite Z.add_0_r, (wrap_small (wrap _)) by apply wrap_is_int.
  rewrite !wrap_add_l. f_equal. lia.
Qed.

Lemma block_fits_moved (g : GameState) (dx dy : Z) (o : Z * Z) :
  block_fits (moved dx dy g) 0 0 o = block_fits g dx dy o.
Proof.
  unfold block_fits, moved.
  cbn [current_x current_y board set_current_x set_current_y].
  by rewrite !int_add_shift.
Qed.

Lemma can_move_moved (g : GameState) (dx dy : Z) :
  can_move (moved dx dy g) 0 0 = can_move g dx dy.
Proof.
  unfold can_move.
  change (current_piece (moved dx dy g)) with (current_piece g).
  induction (current_piece g) as [|o l IH]; [done|].
  cbn [forallb]. by rewrite block_fits_moved, IH.
Qed.

(** ** The active piece *)

Lemma catalog_rotations :
  forallb (fun t =>
    forallb (fun s =>
      bool_decide (length s = 4%nat /\ NoDup s /\
                   Forall (fun o => -3 <= fst o <= 3 /\ -3 <= snd o <= 3) s /\
                   map rotate_block s ∈ rotations (shape_of t)))
      (rotations (shape_of t)))
    (seqZ 0 7) = true.
Proof. vm_compute. reflexivity. Qed.

Lemma rotations_facts (t : Z) (s : list (Z * Z)) :
  0 <= t <= 6 -> s ∈ rotations (shape_of t) ->
  length s = 4%nat /\ NoDup s /\
  Forall (fun o => -3 <= fst o <= 3 /\ -3 <= snd o <= 3) s /\
  map rotate_block s ∈ rotations (shape_of t).
Proof.
  intros Ht Hs.
  pose proof catalog_rotations as H.
  rewrite forallb_forall in H.
  specialize (H t). rewrite <- list_elem_of_In, elem_of_seqZ in H.
  specialize (H ltac:(lia)).
  rewrite forallb_forall in H.
  specialize (H s). rewrite <- list_elem_of_In in H.
  by apply bool_decide_eq_true in H.
Qed.

Lemma can_move_ext (g g' : GameState) (dx dy : Z) :
  (board g', current_x g', current_y g', current_piece g')
  = (board g, current_x g, current_y g, current_piece g) ->
  can_move g' dx dy = can_move g dx dy.
Proof.
  intros [= Hb Hx Hy Hp]. unfold can_move, block_fits.
  by rewrite Hb, Hx, Hy, Hp.
Qed.

(** On an empty board each of the seven shapes fits where it is spawned. *)
Lemma spawn_fits_empty :
  forallb (fun t =>
    can_move (st (new_piece 0 (set_next_type t init_game_state))) 0 0)
    (seqZ 0 7) = true.
Proof. vm_compute. reflexivity. Qed.

Ltac int_range := unfold is_int, INT_MIN, INT_MAX in *; lia.

(** For an anchor near the board and a step of at most one cell the
    coordinates [can_move] computes are the plain sums. *)
Lemma block_fits_plain (g : GameState) (dx dy : Z) (o : Z * Z) :
  -3 <= current_x g <= 12 -> 0 <= current_y g <= 22 ->
  -3 <= fst o <= 3 /\ -3 <= snd o <= 3 ->
  -1 <= dx <= 1 -> -1 <= dy <= 1 ->
  block_fits g dx dy o = true <->
  0 <= current_x g + fst o + dx < BOARD_WIDTH /\
  current_y g + snd o + dy < BOARD_HEIGHT /\
  (0 <= current_y g + snd o + dy ->
   cell (board g) (current_y g + snd o + dy) (current_x g + fst o + dx) = 0).
Proof.
  intros Hx Hy [Ho1 Ho2] Hdx Hdy. unfold block_fits.
  rewrite (int_add_small (current_x g)), (int_add_small (current_y g))
    by int_range.
  rewrite !int_add_small by int_range.
  board_size. cbv zeta.
  set (c := cell _ _ _). clearbody c. lia.
Qed.

Lemma piece_ok_facts (g : GameState) :
  0 <= current_type g <= 6 -> piece_ok g ->
  length (current_piece g) = 4%nat /\ NoDup (current_piece g) /\
  Forall (fun o => -3 <= fst o <= 3 /\ -3 <= snd o <= 3) (current_piece g) /\
  map rotate_block (current_piece g) ∈ rotations (shape_of (current_type g)).
Proof. intros Ht Hp. by apply rotations_facts. Qed.

Lemma play_inv_moved (dx dy : Z) (g : GameState) :
  play_inv g -> -1 <= dx <= 1 -> 0 <= dy <= 1 ->
  can_move g dx dy = true -> play_inv (moved dx dy g).
Proof.
  intros (Hg & Hp & Hx & Hy & Hv) Hdx Hdy Hm.
  assert (0 <= current_type g <= 6) as Ht by apply Hg.
  destruct (piece_ok_facts g Ht Hp) as (Hlen & _ & Hoff & _).
  assert (-3 <= current_x g + dx <= 12 /\ 0 <= current_y g + dy <= 22)
    as [Hx' Hy'].
  { unfold can_move in Hm.
    destruct (current_piece g) as [|o l]; [discriminate|].
    cbn [forallb] in Hm. apply andb_true_iff in Hm as [Hm _].
    apply Forall_cons in Hoff as [Ho _].
    apply block_fits_plain in Hm; [|done|done|done|lia|lia].
    board_size. lia. }
  split; [exact Hg|]. split; [exact Hp|].
  split; [|split].
  - unfold moved. cbn [current_x set_current_x set_current_y].
    by rewrite int_add_small by int_range.
  - unfold moved. cbn [current_y set_current_x set_current_y].
    by rewrite int_add_small by int_range.
  - intros _. by rewrite can_move_moved.
Qed.

Lemma key_action_moved (k : Key) (g : GameState) :
  is_int (current_x g) -> is_int (current_y g) ->
  key_action k g =
  match k with
  | GDK_KEY_Left => if can_move g (-1) 0 then moved (-1) 0 g else g
  | GDK_KEY_Right => if can_move g 1 0 then moved 1 0 g else g
  | GDK_KEY_Down => if can_move g 0 1 then moved 0 1 g else g
  | GDK_KEY_Up => if rotation_fits g then rotated g else g
  | _ => g
  end.
Proof.
  intros Hx Hy. unfold key_action, moved.
  rewrite (int_add_small (current_x g) 0), (int_add_small (current_y g) 0)
    by (rewrite Z.add_0_r; done).
  rewrite !Z.add_0_r.
  destruct k; try reflexivity.
  fold (rotated g). fold (rotation_fits g).
  destruct (rotation_fits g); [reflexivity|].
  unfold rotated, set_current_piece. cbn. by destruct g.
Qed.

Lemma play_inv_rotated (g : GameState) :
  play_inv g -> rotation_fits g = true -> play_inv (rotated g).
Proof.
  intros (Hg & Hp & Hx & Hy & Hv) Hf.
  assert (0 <= current_type g <= 6) as Ht by apply Hg.
  destruct (piece_ok_facts g Ht Hp) as (_ & _ & _ & Hrot).
  split; [exact Hg|]. split; [exact Hrot|].
  split; [exact Hx|]. split; [exact Hy|]. intros _. exact Hf.
Qed.

Lemma play_inv_key_action (k : Key) (g : GameState) :
  play_inv g -> play_inv (key_action k g).
Proof.
  intros Hg. pose proof Hg as (_ & _ & Hx & Hy & _).
  rewrite key_action_moved by int_range.
  destruct k; try done.
  - destruct (can_move g (-1) 0) eqn:Hm; [|done].
    apply play_inv_moved; done || lia.
  - destruct (can_move g 1 0) eqn:Hm; [|done].
    apply play_inv_moved; done || lia.
  - destruct (can_move g 0 1) eqn:Hm; [|done].
    apply play_inv_moved; done || lia.
  - destruct (rotation_fits g) eqn:Hm; [|done].
    by apply play_inv_rotated.
Qed.

Lemma piece_ok_new_piece (rnd : Z) (g : GameState) :
  piece_ok (st (new_piece rnd g)).
Proof. apply list_elem_of_here. Qed.

Lemma spawn_fits (t : Z) (g : GameState) :
  0 <= t <= 6 ->
  (board g, current_x g, current_y g, current_piece g)
  = (empty_board, 3, 0, shape_of t) ->
  can_move g 0 0 = true.
Proof.
  intros Ht Hg. pose proof spawn_fits_empty as H.
  rewrite forallb_forall in H. specialize (H t).
  rewrite <- list_elem_of_In, elem_of_seqZ in H. specialize (H ltac:(lia)).
  rewrite <- H. apply can_move_ext. by rewrite Hg.
Qed.

Lemma play_inv_toggle_pause (g : GameState) :
  play_inv g -> play_inv (st (toggle_pause g)).
Proof.
  intros H. unfold toggle_pause. destruct (game_over g); exact H.
Qed.

Lemma play_inv_key_press (event : option Key) (g : GameState) :
  play_inv g -> play_inv (st (key_press event g)).
Proof.
  intros H. unfold key_press. destruct event as [k|]; [|exact H].
  destruct (game_over g); [exact H|].
  assert (play_inv (st (match k with
                        | GDK_KEY_p => toggle_pause g
                        | _ => mkOut tt g []
                        end))) as Ho
    by (destruct k; try exact H; by apply play_inv_toggle_pause).
  destruct (paused _); cbn [st]; [exact Ho|].
  by apply play_inv_key_action.
Qed.

Lemma play_inv_spawned (b : bool) (g : GameState) :
  game_inv g -> piece_ok g -> (current_x g, current_y g) = (3, 0) ->
  (b = true -> can_move g 0 0 = true) ->
  play_inv (if b then g else set_game_over true g).
Proof.
  intros Hg Hp [= Hx Hy] Hv. destruct b.
  - split; [exact Hg|]. split; [exact Hp|]. rewrite Hx, Hy.
    split; [lia|]. split; [lia|]. intros _. by apply Hv.
  - split; [exact Hg|]. split; [exact Hp|].
    cbn [current_x current_y set_game_over]. rewrite Hx, Hy.
    split; [lia|]. split; [lia|]. discriminate.
Qed.

Lemma play_inv_gravity (g : GameState) :
  play_inv g -> can_move g 0 1 = true ->
  play_inv (set_current_y (int_add (current_y g) 1) g).
Proof.
  intros Hg Hm. pose proof Hg as (_ & _ & Hx & _).
  replace (set_current_y (int_add (current_y g) 1) g) with (moved 0 1 g).
  - apply play_inv_moved; done || lia.
  - unfold moved. rewrite (int_add_small (current_x g) 0) by int_range.
    rewrite Z.add_0_r. by destruct g.
Qed.

Lemma play_inv_game_loop (rnd tid : Z) (g : GameState) :
  0 <= rnd < 7 -> play_inv g -> play_inv (st (game_loop rnd tid g)).
Proof.
  intros Hr Hg. pose proof Hg as (Hinv & _).
  unfold game_loop.
  destruct (paused g || game_over g); [exact Hg|].
  destruct (can_move g 0 1) eqn:Hm; [by apply play_inv_gravity|].
  pose proof (game_inv_new_piece rnd _ Hr
                (game_inv_clear_lines tid _ (game_inv_land_piece _ Hinv)))
    as H3.
  pose proof (piece_ok_new_piece rnd (st (clear_lines tid (land_piece g))))
    as Hp3.
  destruct (new_piece_fields rnd (st (clear_lines tid (land_piece g))))
    as (_ & _ & Hxy & _).
  destruct (can_move _ 0 0) eqn:Hfit; cbn [negb].
  - by apply (play_inv_spawned true).
  - by apply (play_inv_spawned false).
Qed.

Lemma play_inv_start_new_game (rnd tid : Z) (g : GameState) :
  0 <= rnd < 7 -> play_inv (st (start_new_game rnd tid g)).
Proof.
  intros Hr.
  split; [by apply game_inv_start_new_game|].
  split; [apply piece_ok_new_piece|].
  split; [by vm_compute|]. split; [by vm_compute|].
  intros _. by apply (spawn_fits 0).
Qed.

Lemma play_inv_main (rnd1 rnd2 tid : Z) :
  0 <= rnd1 < 7 -> 0 <= rnd2 < 7 ->
  play_inv (st (main_setup rnd1 rnd2 tid)).
Proof.
  intros H1 H2.
  split; [by apply game_inv_main|].
  unfold main_setup. cbn [st].
  set (g2 := st (new_piece rnd2 (set_next_type rnd1 init_game_state))).
  assert (piece_ok g2) as Hp by apply piece_ok_new_piece.
  assert ((board g2, current_x g2, current_y g2, current_piece g2)
          = (empty_board, 3, 0, shape_of rnd1)) as Hf by reflexivity.
  clearbody g2. split; [exact Hp|].
  injection Hf as Hb Hx Hy Hpc.
  cbn [current_x current_y set_timeout_id]. rewrite Hx, Hy.
  split; [lia|]. split; [lia|].
  intros _. apply (spawn_fits rnd1); [lia|].
  cbn [board current_x current_y current_piece set_timeout_id].
  by rewrite Hb, Hx, Hy, Hpc.
Qed.

Lemma reachable_play_inv (g : GameState) : reachable g -> play_inv g.
Proof.
  induction 1 as [rnd1 rnd2 tid H1 H2 | e g Hg IH He].
  - by apply play_inv_main.
  - destruct e as [rnd tid | | event | rnd tid]; cbn [handle random_ok] in *.
    + by apply play_inv_start_new_game.
    + by apply play_inv_toggle_pause.
    + by apply play_inv_key_press.
    + by apply play_inv_game_loop.
Qed.

(** X1.  In every reachable state where the game is not over, each block
    of the active piece is in a column [0 .. 9], in a row below 20 and, when
    its row is not negative, on an empty cell of the board; the anchor is in
    columns [-3 .. 12] and rows [0 .. 22].  The coordinates are plain sums:
    nothing wraps around. *)
Theorem active_piece_on_free_cells (g : GameState) :
  reachable g -> game_over g = false ->
  (-3 <= current_x g <= 12 /\ 0 <= current_y g <= 22) /\
  forall o : Z * Z, o ∈ current_piece g ->
    0 <= current_x g + fst o < BOARD_WIDTH /\
    current_y g + snd o < BOARD_HEIGHT /\
    (0 <= current_y g + snd o ->
     cell (board g) (current_y g + snd o) (current_x g + fst o) = 0).
Proof.
  intros Hr Hgo.
  destruct (reachable_play_inv g Hr) as (Hg & Hp & Hx & Hy & Hv).
  split; [done|]. intros o Ho.
  assert (0 <= current_type g <= 6) as Ht by apply Hg.
  destruct (piece_ok_facts g Ht Hp) as (_ & _ & Hoff & _).
  rewrite Forall_forall in Hoff. specialize (Hoff o Ho).
  specialize (Hv Hgo). unfold can_move in Hv.
  rewrite forallb_forall in Hv.
  specialize (Hv o (proj1 (list_elem_of_In _ _) Ho)).
  apply block_fits_plain in Hv; [|done|done|done|lia|lia].
  by rewrite !Z.add_0_r in Hv.
Qed.

Lemma active_piece_on_free_cells_witness :
  reachable (handle (KeyPress (Some GDK_KEY_Up)) (st (main_setup 3 4 1))) /\
  game_over (handle (KeyPress (Some GDK_KEY_Up)) (st (main_setup 3 4 1)))
    = false /\
  -3 <= current_x (handle (KeyPress (Some GDK_KEY_Up))
                     (st (main_setup 3 4 1))) <= 12.
Proof.
  assert (reachable (handle (KeyPress (Some GDK_KEY_Up))
                       (st (main_setup 3 4 1)))) as Hr
    by (apply reach_step; [apply reach_main; lia | exact I]).
  split; [exact Hr|]. split; [reflexivity|].
  exact (proj1 (proj1 (active_piece_on_free_cells _ Hr eq_refl))).
Defined.

(** X2.  In every reachable state the active piece is the catalog shape of
    the current type, rotated zero to three times: it has four blocks with
    pairwise different offsets, each between -3 and 3, and its four board
    cells are pairwise different. *)
Theorem active_piece_is_catalog_shape (g : GameState) :
  reachable g ->
  0 <= current_type g <= 6 /\
  current_piece g ∈ rotations (shape_of (current_type g)) /\
  length (current_piece g) = 4%nat /\
  NoDup (current_piece g) /\
  Forall (fun o => -3 <= fst o <= 3 /\ -3 <= snd o <= 3) (current_piece g) /\
  NoDup (landing_cells g).
Proof.
  intros Hr.
  destruct (reachable_play_inv g Hr) as (Hg & Hp & Hx & Hy & _).
  assert (0 <= current_type g <= 6) as Ht by apply Hg.
  destruct (piece_ok_facts g Ht Hp) as (Hlen & Hnd & Hoff & _).
  do 5 (split; [done|]).
  unfold landing_cells. apply NoDup_fmap_2_strong; [|done].
  rewrite Forall_forall in Hoff.
  intros [a b] [c d] Ha Hc. unfold block_cell. cbn [fst snd].
  pose proof (Hoff _ Ha) as Hab. pose proof (Hoff _ Hc) as Hcd.
  cbn [fst snd] in Hab, Hcd.
  rewrite !int_add_small by int_range.
  intros [= E1 E2]. f_equal; lia.
Qed.

Lemma active_piece_is_catalog_shape_witness :
  reachable (handle (KeyPress (Some GDK_KEY_Up)) (st (main_setup 3 4 1))) /\
  NoDup (landing_cells (handle (KeyPress (Some GDK_KEY_Up))
                          (st (main_setup 3 4 1)))).
Proof.
  assert (reachable (handle (KeyPress (Some GDK_KEY_Up))
                       (st (main_setup 3 4 1)))) as Hr
    by (apply reach_step; [apply reach_main; lia | exact I]).
  split; [exact Hr|].
  exact (proj2 (proj2 (proj2 (proj2 (proj2
           (active_piece_is_catalog_shape _ Hr)))))).
Defined.

(** X3.  Testing a displacement is testing the displaced piece in place:
    for every state and all [int] values, [can_move(ex, ey)] after the
    anchor has been moved by (dx, dy) equals [can_move(dx + ex, dy + ey)]
    before, the sums being [int] sums. *)
Theorem can_move_displaced (g : GameState) (dx dy ex ey : Z) :
  can_move (moved dx dy g) ex ey
  = can_move g (int_add dx ex) (int_add dy ey).
Proof.
  unfold can_move.
  change (current_piece (moved dx dy g)) with (current_piece g).
  induction (current_piece g) as [|o l IH]; [done|].
  cbn [forallb]. rewrite IH. f_equal.
  unfold block_fits, moved.
  cbn [current_x current_y board set_current_x set_current_y].
  assert (forall x d o' e : Z,
             int_add (int_add (int_add x d) o') e
             = int_add (int_add x o') (int_add d e)) as Hs.
  { intros x d o' e. unfold int_add.
    rewrite !wrap_add_l, (Z.add_comm (x + o') (wrap (d + e))), wrap_add_l.
    rewrite <- (Z.add_assoc (wrap (x + d))), wrap_add_l. f_equal. lia. }
  by rewrite !Hs.
Qed.

(** ** Keys *)

Lemma moved_back (dx : Z) (g : GameState) :
  is_int (current_x g) -> is_int (current_y g) ->
  moved (- dx) 0 (moved dx 0 g) = g.
Proof.
  intros Hx Hy. unfold moved.
  cbn [current_x current_y set_current_x set_current_y].
  unfold int_add. rewrite !Z.add_0_r, wrap_add_l.
  rewrite (wrap_small (wrap (current_y g))) by apply wrap_is_int.
  rewrite (wrap_small (current_y g)) by done.
  replace (current_x g + dx + - dx) with (current_x g) by lia.
  rewrite (wrap_small (current_x g)) by done. by destruct g.
Qed.

(** X4.  In a reachable state with the game running, a Left key that moves
    the piece is undone by the Right key, and a Right key that moves it is
    undone by the Left key: the state is the one before the two keys. *)
Theorem left_right_round_trip (g : GameState) :
  reachable g -> game_over g = false -> paused g = false ->
  (can_move g (-1) 0 = true ->
   st (key_press (Some GDK_KEY_Right) (st (key_press (Some GDK_KEY_Left) g)))
   = g) /\
  (can_move g 1 0 = true ->
   st (key_press (Some GDK_KEY_Left) (st (key_press (Some GDK_KEY_Right) g)))
   = g).
Proof.
  intros Hr Hgo Hpa.
  destruct (reachable_play_inv g Hr) as (_ & _ & Hx & Hy & Hv).
  specialize (Hv Hgo).
  assert (is_int (current_x g) /\ is_int (current_y g)) as [Hix Hiy]
    by (split; int_range).
  assert (forall dx : Z, -1 <= dx <= 1 ->
            is_int (current_x (moved dx 0 g)) /\
            is_int (current_y (moved dx 0 g))) as Hi.
  { intros dx Hdx. unfold moved.
    cbn [current_x current_y set_current_x set_current_y].
    split; apply wrap_is_int. }
  split; intros Hm.
  - rewrite (key_press_playing GDK_KEY_Left g) by done. cbn [st].
    rewrite key_action_moved, Hm by done.
    rewrite key_press_playing by done. cbn [st].
    rewrite key_action_moved by (apply (Hi (-1)); lia).
    replace (can_move (moved (-1) 0 g) 1 0) with (can_move g 0 0).
    + rewrite Hv. by apply (moved_back (-1)).
    + rewrite <- (moved_back (-1) g Hix Hiy) at 1.
      by rewrite can_move_moved.
  - rewrite (key_press_playing GDK_KEY_Right g) by done. cbn [st].
    rewrite key_action_moved, Hm by done.
    rewrite key_press_playing by done. cbn [st].
    rewrite key_action_moved by (apply (Hi 1); lia).
    replace (can_move (moved 1 0 g) (-1) 0) with (can_move g 0 0).
    + rewrite Hv. by apply (moved_back 1).
    + rewrite <- (moved_back 1 g Hix Hiy) at 1.
      by rewrite can_move_moved.
Qed.

Lemma left_right_round_trip_witness :
  reachable (st (main_setup 3 4 1)) /\
  can_move (st (main_setup 3 4 1)) (-1) 0 = true /\
  st (key_press (Some GDK_KEY_Right)
        (st (key_press (Some GDK_KEY_Left) (st (main_setup 3 4 1)))))
  = st (main_setup 3 4 1).
Proof.
  assert (reachable (st (main_setup 3 4 1))) as Hr
    by (apply reach_main; lia).
  split; [exact Hr|]. split; [reflexivity|].
  exact (proj1 (left_right_round_trip _ Hr eq_refl eq_refl) eq_refl).
Defined.

(** X5.  Once [game_over] is set, only [start_new_game] changes the state:
    any sequence of pause clicks, key presses (the [p] key included) and
    ticks leaves the state as it is, and [start_new_game] clears the
    flag. *)
Theorem game_over_is_terminal (es : list Event) (g : GameState) :
  game_over g = true ->
  Forall (fun e => is_new_game e = false) es ->
  run es g = g /\
  forall rnd tid : Z, game_over (handle (NewGame rnd tid) g) = false.
Proof.
  intros Hg Hes. split; [|reflexivity].
  induction Hes as [|e es He Hes IH]; [reflexivity|].
  unfold run. cbn [fold_left]. fold (run es (handle e g)).
  assert (handle e g = g) as ->; [|exact IH].
  destruct e as [rnd tid | | event | rnd tid]; cbn [handle].
  - discriminate He.
  - unfold toggle_pause. by rewrite Hg.
  - unfold key_press. destruct event; [|done]. by rewrite Hg.
  - unfold game_loop. by rewrite Hg, orb_true_r.
Qed.

Lemma game_over_is_terminal_witness :
  game_over (st (game_loop 5 18 stuck_game)) = true /\
  run [Tick 1 2; KeyPress (Some GDK_KEY_p); TogglePause;
       KeyPress (Some GDK_KEY_Left); Tick 3 4]
      (st (game_loop 5 18 stuck_game))
  = st (game_loop 5 18 stuck_game).
Proof.
  split; [reflexivity|].
  apply (game_over_is_terminal
           [Tick 1 2; KeyPress (Some GDK_KEY_p); TogglePause;
            KeyPress (Some GDK_KEY_Left); Tick 3 4]
           (st (game_loop 5 18 stuck_game))); [reflexivity|].
  repeat constructor.
Defined.

(** X6.  While the game is not over, [toggle_pause] flips [paused] and
    nothing else, sets the button label to "Resume" when it pauses and to
    "Pause" when it resumes, and two calls restore the state; the [p] key
    leaves the state [toggle_pause] leaves.  When the game is over it does
    nothing and makes no call. *)
Theorem toggle_pause_flips (g : GameState) :
  (game_over g = false ->
   st (toggle_pause g) = set_paused (negb (paused g)) g /\
   calls (toggle_pause g)
   = [gtk_button_set_label pause_button
        (if paused g then "Pause" else "Resume")] /\
   st (toggle_pause (st (toggle_pause g))) = g /\
   st (key_press (Some GDK_KEY_p) g) = st (toggle_pause g)) /\
  (game_over g = true -> toggle_pause g = mkOut tt g []).
Proof.
  unfold key_press, toggle_pause. split; intros Hg; rewrite Hg; [|done].
  cbn [st calls game_over paused set_paused key_action]. rewrite Hg.
  cbn [st]. rewrite negb_involutive.
  split; [done|]. split; [by destruct (paused g)|].
  split; [by destruct g|]. by destruct (negb (paused g)).
Qed.

Lemma toggle_pause_flips_witness :
  game_over demo_game = false /\
  st (toggle_pause (st (toggle_pause demo_game))) = demo_game /\
  calls (toggle_pause demo_game)
  = [gtk_button_set_label pause_button "Resume"].
Proof.
  destruct (proj1 (toggle_pause_flips demo_game) eq_refl)
    as (_ & Hc & H2 & _).
  split; [reflexivity|]. split; [exact H2 | exact Hc].
Defined.

(** X7.  [start_new_game] does not look at the state it is called in.  The
    state it leaves has empty arrays, score 0, level 1, period 500, neither
    flag set, and the square piece at (3, 0) whatever random value is
    drawn (the value becomes the next type).  It adds a 500 ms timer and
    never calls [g_source_remove], also when the old state holds a timer
    id, because the id is zeroed before it is tested. *)
Theorem start_new_game_resets (rnd tid : Z) (g : GameState) :
  st (start_new_game rnd tid g)
  = mkGame empty_board empty_board 3 0 (shape_of 0) 0 rnd 0 1 500
      "Score: 0  Level: 1" false false tid /\
  filter (fun c => is_timer_call c = true) (calls (start_new_game rnd tid g))
  = [g_timeout_add 500].
Proof. split; reflexivity. Qed.

(** X8.  [key_press] returns [TRUE] and changes at most the anchor, the
    offsets and the pause flag: the two arrays, both piece types, score,
    level, period, label text, [game_over] and the timer id stay, and no
    timer call is made. *)
Theorem key_press_frame (event : option Key) (g : GameState) :
  ret (key_press event g) = true /\
  (board (st (key_press event g)), board_colors (st (key_press event g)),
   current_type (st (key_press event g)), next_type (st (key_press event g)),
   score (st (key_press event g)), level (st (key_press event g)),
   game_speed (st (key_press event g)), score_text (st (key_press event g)),
   game_over (st (key_press event g)), timeout_id (st (key_press event g)))
  = (board g, board_colors g, current_type g, next_type g, score g,
     level g, game_speed g, score_text g, game_over g, timeout_id g) /\
  filter (fun c => is_timer_call c = true) (calls (key_press event g)) = [].
Proof.
  unfold key_press. destruct event as [k|]; [|done].
  destruct (game_over g) eqn:Hg; [cbn [st ret calls]; by rewrite ?Hg|].
  unfold toggle_pause. rewrite Hg.
  destruct k; cbn [st calls];
    destruct (paused _) eqn:Hp; cbn [st ret calls key_action];
    repeat match goal with
           | |- context [can_move ?s ?a ?b] => destruct (can_move s a b)
           end;
    cbn; rewrite ?Hg; done.
Qed.

(** ** More on [clear_lines] *)

Lemma kept_rows_all (b : list (list Z)) :
  full_rows b = O -> kept_rows b = b.
Proof.
  induction b as [|r b IH]; [done|].
  rewrite full_rows_cons, kept_rows_cons.
  destruct (row_is_full r); [discriminate|].
  intros H. simpl. f_equal. apply IH. lia.
Qed.

Lemma kept_colors_all (b c : list (list Z)) :
  length c = length b -> full_rows b = O -> kept_colors b c = c.
Proof.
  revert c. induction b as [|r b IH]; intros [|rc c] Hl; try done.
  rewrite full_rows_cons, kept_colors_cons.
  destruct (row_is_full r); [discriminate|].
  intros H. simpl. f_equal. apply IH; simpl in *; lia.
Qed.

Lemma clear_lines_keeps_arrays (tid : Z) (g : GameState) :
  grid_shaped (board g) -> grid_shaped (board_colors g) ->
  full_rows (board g) = O ->
  lines_cleared g = 0 /\
  board (st (clear_lines tid g)) = board g /\
  board_colors (st (clear_lines tid g)) = board_colors g.
Proof.
  intros Hb Hc Hf.
  destruct (clear_lines_rows tid g Hb Hc) as (El & Eb & Ec).
  rewrite El, Eb, Ec, Hf, kept_rows_all by done.
  rewrite kept_colors_all; [done | | done].
  destruct Hb as [-> _]. by destruct Hc as [-> _].
Qed.

(** X9.  On arrays of the right shape without a full row, [clear_lines]
    counts no line, leaves both arrays as they are and leaves the score. *)
Theorem clear_lines_without_full_row (tid : Z) (g : GameState) :
  grid_shaped (board g) -> grid_shaped (board_colors g) ->
  full_rows (board g) = O -> is_int (score g) ->
  lines_cleared g = 0 /\
  board (st (clear_lines tid g)) = board g /\
  board_colors (st (clear_lines tid g)) = board_colors g /\
  score (st (clear_lines tid g)) = score g.
Proof.
  intros Hb Hc Hf Hs.
  destruct (clear_lines_keeps_arrays tid g Hb Hc Hf) as (El & Eb & Ec).
  do 3 (split; [done|]).
  rewrite clear_lines_score. unfold score_sum. rewrite El.
  unfold int_mul. change (wrap (0 * 100)) with 0.
  rewrite Z.mul_0_l. change (wrap 0) with 0.
  unfold int_add. rewrite Z.add_0_r. by apply wrap_small.
Qed.

Lemma clear_lines_without_full_row_witness :
  grid_shaped (board stuck_game) /\ grid_shaped (board_colors stuck_game) /\
  full_rows (board stuck_game) = O /\ is_int (score stuck_game) /\
  board (st (clear_lines 18 stuck_game)) = board stuck_game.
Proof.
  assert (grid_shaped (board stuck_game)) as Hb
    by (split; [reflexivity | repeat constructor]).
  assert (is_int (score stuck_game)) as Hs by (split; discriminate).
  split; [exact Hb|]. split; [exact Hb|]. split; [reflexivity|].
  split; [exact Hs|].
  exact (proj1 (proj2 (clear_lines_without_full_row 18 stuck_game
                         Hb Hb eq_refl Hs))).
Defined.

(** X10.  A second [clear_lines] finds nothing to clear: on arrays of the
    right shape, the arrays after two calls are the arrays after one. *)
Theorem clear_lines_twice (tid1 tid2 : Z) (g : GameState) :
  grid_shaped (board g) -> grid_shaped (board_colors g) ->
  lines_cleared (st (clear_lines tid1 g)) = 0 /\
  board (st (clear_lines tid2 (st (clear_lines tid1 g))))
  = board (st (clear_lines tid1 g)) /\
  board_colors (st (clear_lines tid2 (st (clear_lines tid1 g))))
  = board_colors (st (clear_lines tid1 g)).
Proof.
  intros Hb Hc.
  destruct (clear_lines_rows tid1 g Hb Hc) as (_ & Eb & Ec).
  destruct (cleared_shaped _ _ Hb Hc) as [Hb1 Hc1].
  rewrite <- Eb in Hb1. rewrite <- Ec in Hc1.
  apply clear_lines_keeps_arrays; [done|done|].
  by rewrite Eb, full_rows_app, full_rows_zero_rows, full_rows_kept_rows.
Qed.

Lemma clear_lines_twice_witness :
  grid_shaped (board demo_game) /\ grid_shaped (board_colors demo_game) /\
  lines_cleared demo_game = 3 /\
  lines_cleared (st (clear_lines 18 demo_game)) = 0.
Proof.
  assert (grid_shaped (board demo_game)) as Hb
    by (split; [reflexivity | repeat constructor]).
  assert (grid_shaped (board_colors demo_game)) as Hc
    by (split; [reflexivity | repeat constructor]).
  split; [exact Hb|]. split; [exact Hc|]. split; [reflexivity|].
  exact (proj1 (clear_lines_twice 18 19 demo_game Hb Hc)).
Defined.

(** X11.  As long as the sum fits an [int], [clear_lines] adds
    [100 * level] points for each full row: with [k] full rows, a score and
    a level that are not negative and [score + k * 100 * level] at most
    [INT_MAX], the new score is that sum, and it is not below the old
    score. *)
Theorem clear_lines_adds_points (tid : Z) (g : GameState) :
  grid_shaped (board g) -> grid_shaped (board_colors g) ->
  0 <= score g -> 0 <= level g ->
  score g + Z.of_nat (full_rows (board g)) * 100 * level g <= INT_MAX ->
  score (st (clear_lines tid g))
  = score g + Z.of_nat (full_rows (board g)) * 100 * level g /\
  score g <= score (st (clear_lines tid g)).
Proof.
  intros Hb Hc Hs Hl Hsum.
  destruct (clear_lines_rows tid g Hb Hc) as (El & _ & _).
  pose proof (length_kept_rows (board g)) as Hk.
  destruct Hb as [Hlen _]. rewrite Hlen in Hk.
  change (Z.to_nat BOARD_HEIGHT) with 20%nat in Hk.
  rewrite clear_lines_score. unfold score_sum. rewrite El.
  set (k := Z.of_nat (full_rows (board g))) in *.
  assert (0 <= k <= 20) as Hk' by lia.
  assert (0 <= k * 100 * level g) as Hp by nia.
  unfold int_mul, int_add.
  rewrite (wrap_small (k * 100)) by int_range.
  rewrite (wrap_small (k * 100 * level g)) by int_range.
  rewrite wrap_small by int_range. lia.
Qed.

Lemma clear_lines_adds_points_witness :
  grid_shaped (board demo_game) /\ grid_shaped (board_colors demo_game) /\
  score (st (clear_lines 18 demo_game)) = 1200 + 3 * 100 * 1.
Proof.
  assert (grid_shaped (board demo_game)) as Hb
    by (split; [reflexivity | repeat constructor]).
  assert (grid_shaped (board_colors demo_game)) as Hc
    by (split; [reflexivity | repeat constructor]).
  split; [exact Hb|]. split; [exact Hc|].
  apply (clear_lines_adds_points 18 demo_game Hb Hc); vm_compute; discriminate.
Defined.

(** X12.  [clear_lines] writes the label before it changes the level: the
    text it stores and shows carries the new score and the level before the
    call, so after a level change the label is one level behind. *)
Theorem clear_lines_label_is_one_level_behind (tid : Z) (g : GameState) :
  1 <= level g <= 10 ->
  score_text (st (clear_lines tid g))
  = score_line (score (st (clear_lines tid g))) (level g) /\
  head (calls (clear_lines tid g))
  = Some (gtk_label_set_text score_label
            (score_line (score (st (clear_lines tid g))) (level g))) /\
  (levels_up g = true ->
   level (st (clear_lines tid g)) = level g + 1 /\
   score_text (st (clear_lines tid g))
   = score_line (score (st (clear_lines tid g)))
       (level (st (clear_lines tid g)) - 1)).
Proof.
  intros Hl.
  destruct (clear_lines_fields tid g) as (Es & El & _ & _ & Ex & Ec & _).
  rewrite Es, Ex, Ec, El. split; [done|]. split; [done|].
  intros ->. rewrite int_add_small by int_range.
  split; [done|]. f_equal. lia.
Qed.

Lemma clear_lines_label_is_one_level_behind_witness :
  1 <= level leap_game <= 10 /\
  level (st (clear_lines 18 leap_game)) = 2 /\
  score_text (st (clear_lines 18 leap_game)) = "Score: 15200  Level: 1".
Proof.
  assert (1 <= level leap_game <= 10) as Hl
    by (vm_compute; split; discriminate).
  pose proof (clear_lines_label_is_one_level_behind 18 leap_game Hl)
    as (H1 & _ & _).
  split; [exact Hl|]. split; [reflexivity|].
  rewrite H1. reflexivity.
Defined.

(** ** Drawing *)

Lemma draw_preview_next (g : GameState) :
  draw_preview g = draw_preview (set_next_type (next_type g) zero_game).
Proof. reflexivity. Qed.

(** X13.  For a next type in [0 .. 6], as in every reachable state,
    [draw_preview] paints the background and the frame and then, in the
    colour of the next type, one 14 by 14 square per offset of its catalog
    shape, at 15 times the offset plus one: four squares, all inside the
    75 by 75 preview area. *)
Theorem draw_preview_fits (g : GameState) :
  0 <= next_type g <= 6 ->
  fst (draw_preview g) = true /\
  snd (draw_preview g)
  = [ cairo_set_source_rgb (2 # 10) (2 # 10) (2 # 10);
      cairo_paint;
      cairo_set_source_rgb (5 # 10) (5 # 10) (5 # 10);
      cairo_rectangle 5 5 65 65;
      cairo_stroke;
      set_color (color_of (next_type g)) ]
    ++ flat_map (fun o => [ cairo_rectangle (15 * (fst o + 1))
                              (15 * (snd o + 1)) 14 14;
                            cairo_fill ])
         (shape_of (next_type g)) /\
  length (shape_of (next_type g)) = 4%nat /\
  Forall (inside (PREVIEW_SIZE * BLOCK_SIZE / 2)
                 (PREVIEW_SIZE * BLOCK_SIZE / 2))
         (snd (draw_preview g)).
Proof.
  intros Ht. rewrite draw_preview_next.
  assert (next_type g = 0 \/ next_type g = 1 \/ next_type g = 2 \/
          next_type g = 3 \/ next_type g = 4 \/ next_type g = 5 \/
          next_type g = 6) as Hc by lia.
  destruct Hc as [-> | [-> | [-> | [-> | [-> | [-> | ->]]]]]];
    (split; [reflexivity|]); (split; [reflexivity|]);
    (split; [reflexivity|]);
    repeat (apply Forall_cons; split;
            [vm_compute; repeat split; (exact I || discriminate)|]);
    apply Forall_nil_2.
Qed.

Lemma draw_preview_fits_witness :
  0 <= next_type demo_game <= 6 /\
  Forall (inside 75 75) (snd (draw_preview demo_game)).
Proof.
  assert (0 <= next_type demo_game <= 6) as Ht by (split; discriminate).
  split; [exact Ht|].
  exact (proj2 (proj2 (proj2 (draw_preview_fits demo_game Ht)))).
Defined.

(** X14.  In every reachable state [draw_callback] skips no occupied cell
    and reads the colour table inside its bounds: for a cell of the board
    whose flag is set, the colour index less one is in [0 .. 6] and the
    cell is painted as a 29 by 29 square at 30 times its column and row in
    that colour; a cell whose flag is clear is not painted.  The game-over
    screen is drawn exactly when [game_over] is set, and while the game is
    not over each block of the active piece whose row is not negative is
    painted at 30 times its column and row. *)
Theorem draw_callback_paints_board (g : GameState) :
  reachable g ->
  fst (draw_callback g) = true /\
  snd (draw_callback g)
  = [ cairo_set_source_rgb (1 # 10) (1 # 10) (1 # 10); cairo_paint ]
    ++ flat_map (fun y => flat_map (fun x => draw_cell g y x)
                            (seqZ 0 BOARD_WIDTH)) (seqZ 0 BOARD_HEIGHT)
    ++ [ set_color (color_of (current_type g)) ]
    ++ flat_map (draw_block g) (current_piece g)
    ++ (if game_over g then draw_game_over else []) /\
  (forall x y : Z, 0 <= x < BOARD_WIDTH -> 0 <= y < BOARD_HEIGHT ->
     (cell (board g) y x = 0 -> draw_cell g y x = []) /\
     (cell (board g) y x <> 0 ->
      0 <= cell (board_colors g) y x - 1 <= 6 /\
      draw_cell g y x
      = [ set_color (color_of (cell (board_colors g) y x - 1));
          cairo_rectangle (30 * x) (30 * y) 29 29;
          cairo_fill ])) /\
  (game_over g = false ->
   forall o : Z * Z, o ∈ current_piece g ->
     draw_block g o
     = if 0 <=? current_y g + snd o
       then [ cairo_rectangle (30 * (current_x g + fst o))
                (30 * (current_y g + snd o)) 29 29;
              cairo_fill ]
       else []).
Proof.
  intros Hr. split; [reflexivity|]. split; [reflexivity|].
  destruct (reachable_play_inv g Hr) as (Hg & Hp & Hx & Hy & Hv).
  destruct Hg as (_ & _ & Hok & Ht & _).
  split.
  - intros x y Hxr Hyr. unfold draw_cell.
    pose proof (cells_ok_cell _ _ y x Hok) as [Hiff Hc].
    destruct (Z.eqb_spec (cell (board g) y x) 0) as [Hz|Hz]; cbn [negb].
    + split; [done|]. by intros [].
    + split; [done|]. intros _.
      assert (1 <= cell (board_colors g) y x <= 7) as Hc1 by lia.
      unfold int_sub. rewrite wrap_small by int_range.
      assert (((cell (board_colors g) y x - 1 >=? 0)
               && (cell (board_colors g) y x - 1 <? 7)) = true) as ->
        by lia.
      split; [lia|]. board_size. unfold int_mul, BLOCK_SIZE.
      rewrite !wrap_small by int_range.
      do 2 f_equal. f_equal; lia.
  - intros Hgo o Ho. specialize (Hv Hgo).
    assert (0 <= current_type g <= 6) as Ht' by done.
    destruct (piece_ok_facts g Ht' Hp) as (_ & _ & Hoff & _).
    rewrite Forall_forall in Hoff. specialize (Hoff o Ho).
    unfold can_move in Hv. rewrite forallb_forall in Hv.
    specialize (Hv o (proj1 (list_elem_of_In _ _) Ho)).
    apply block_fits_plain in Hv; [|done|done|done|lia|lia].
    rewrite !Z.add_0_r in Hv. destruct Hv as (Hbx & Hby & _).
    unfold draw_block. rewrite !int_add_small by int_range.
    board_size. unfold int_mul, int_sub, BLOCK_SIZE.
    rewrite !wrap_small by int_range.
    destruct (Z.leb_spec 0 (current_y g + o.2)) as [Hy0|Hy0].
    + assert (((current_y g + o.2 >=? 0) && (current_x g + o.1 >=? 0)
               && (current_x g + o.1 <? 10)) = true) as -> by lia.
      do 2 f_equal; lia.
    + assert (((current_y g + o.2 >=? 0) && (current_x g + o.1 >=? 0)
               && (current_x g + o.1 <? 10)) = false) as -> by lia.
      done.
Qed.

Lemma draw_callback_paints_board_witness :
  reachable ledge_game /\
  cell (board ledge_game) 19 0 <> 0 /\
  cell (board_colors ledge_game) 19 0 - 1 = 0 /\
  draw_cell ledge_game 19 0
  = [ set_color (color_of (cell (board_colors ledge_game) 19 0 - 1));
      cairo_rectangle (30 * 0) (30 * 19) 29 29; cairo_fill ] /\
  cell (board ledge_game) 16 8 <> 0 /\
  cell (board_colors ledge_game) 16 8 - 1 = 1 /\
  draw_cell ledge_game 16 8
  = [ set_color (color_of (cell (board_colors ledge_game) 16 8 - 1));
      cairo_rectangle (30 * 8) (30 * 16) 29 29; cairo_fill ] /\
  cell (board ledge_game) 16 9 = 0 /\
  draw_cell ledge_game 16 9 = [] /\
  draw_block ledge_game (0, 3)
  = (if 0 <=? current_y ledge_game + 3
     then [ cairo_rectangle (30 * (current_x ledge_game + 0))
              (30 * (current_y ledge_game + 3)) 29 29;
            cairo_fill ]
     else []).
Proof.
  pose proof ledge_game_reachable as Hr.
  destruct (draw_callback_paints_board _ Hr) as (_ & _ & Hcells & Hblocks).
  assert (cell (board ledge_game) 19 0 <> 0) as H1 by discriminate.
  assert (cell (board ledge_game) 16 8 <> 0) as H2 by discriminate.
  assert (cell (board ledge_game) 16 9 = 0) as H3 by reflexivity.
  assert (0 <= 0 < BOARD_WIDTH /\ 0 <= 8 < BOARD_WIDTH /\
          0 <= 9 < BOARD_WIDTH /\ 0 <= 19 < BOARD_HEIGHT /\
          0 <= 16 < BOARD_HEIGHT) as (Hx0 & Hx8 & Hx9 & Hy19 & Hy16)
    by (vm_compute; repeat split; discriminate).
  split; [exact Hr|]. split; [exact H1|]. split; [reflexivity|].
  split; [exact (proj2 (proj2 (Hcells 0 19 Hx0 Hy19) H1))|].
  split; [exact H2|]. split; [reflexivity|].
  split; [exact (proj2 (proj2 (Hcells 8 16 Hx8 Hy16) H2))|].
  split; [exact H3|].
  split; [exact (proj1 (Hcells 9 16 Hx9 Hy16) H3)|].
  apply (Hblocks eq_refl (0, 3)). repeat constructor.
Defined.

(** ** Landing and full rows *)

(** X15.  In a reachable state with the game running, [land_piece] writes
    only cells that were empty: every block of the piece with a row that is
    not negative lies on the board on an empty cell and is occupied
    afterwards with the colour index of the piece, and every cell that was
    occupied keeps its flag and its colour index. *)
Theorem landing_overwrites_nothing (g : GameState) :
  reachable g -> game_over g = false ->
  (forall o : Z * Z, o ∈ current_piece g -> 0 <= current_y g + snd o ->
     cell (board g) (current_y g + snd o) (current_x g + fst o) = 0 /\
     cell (board (land_piece g)) (current_y g + snd o) (current_x g + fst o)
       = 1 /\
     cell (board_colors (land_piece g)) (current_y g + snd o)
       (current_x g + fst o) = current_type g + 1) /\
  (forall x y : Z, 0 <= x < BOARD_WIDTH -> 0 <= y < BOARD_HEIGHT ->
     cell (board g) y x <> 0 ->
     cell (board (land_piece g)) y x = cell (board g) y x /\
     cell (board_colors (land_piece g)) y x = cell (board_colors g) y x).
Proof.
  intros Hr Hgo.
  destruct (reachable_play_inv g Hr) as (Hg & Hp & Hx & Hy & Hv).
  destruct Hg as (Hb & Hc & _ & Ht & _).
  destruct (piece_ok_facts g Ht Hp) as (_ & _ & Hoff & _).
  rewrite Forall_forall in Hoff.
  destruct (land_piece_cells g Hb Hc) as (_ & _ & Hcells).
  specialize (Hv Hgo). unfold can_move in Hv. rewrite forallb_forall in Hv.
  assert (forall o : Z * Z, o ∈ current_piece g ->
            block_cell g o = (current_x g + fst o, current_y g + snd o) /\
            0 <= current_x g + fst o < BOARD_WIDTH /\
            current_y g + snd o < BOARD_HEIGHT /\
            (0 <= current_y g + snd o ->
             cell (board g) (current_y g + snd o) (current_x g + fst o) = 0))
    as Hblock.
  { intros o Ho. pose proof (Hoff o Ho) as Hoo.
    pose proof (Hv o (proj1 (list_elem_of_In _ _) Ho)) as Hf.
    apply block_fits_plain in Hf; [|done|done|done|lia|lia].
    rewrite !Z.add_0_r in Hf. split; [|done].
    unfold block_cell. by rewrite !int_add_small by int_range. }
  split.
  - intros o Ho Hy0. destruct (Hblock o Ho) as (Ecell & Hbx & Hby & Hfree).
    split; [by apply Hfree|].
    destruct (Hcells (current_x g + o.1) (current_y g + o.2))
      as [E1 E2]; [done|lia|].
    rewrite E1, E2.
    destruct (decide ((current_x g + o.1, current_y g + o.2)
                      ∈ landing_cells g)) as [_|Hn].
    + split; [done|]. apply int_add_small. int_range.
    + contradict Hn. rewrite <- Ecell. unfold landing_cells.
      by apply list_elem_of_fmap_2.
  - intros x y Hxr Hyr Hocc. destruct (Hcells x y Hxr Hyr) as [E1 E2].
    rewrite E1, E2. case_decide as Hin; [|done].
    unfold landing_cells in Hin.
    apply list_elem_of_fmap in Hin as (o & Eo & Ho).
    destruct (Hblock o Ho) as (Ecell & _ & _ & Hfree).
    rewrite Ecell in Eo. injection Eo as -> ->.
    contradict Hocc. apply Hfree. lia.
Qed.

Lemma landing_overwrites_nothing_witness :
  reachable (st (main_setup 3 4 1)) /\
  game_over (st (main_setup 3 4 1)) = false /\
  cell (board (land_piece (st (main_setup 3 4 1)))) (0 + 1) (3 + 0) = 1.
Proof.
  assert (reachable (st (main_setup 3 4 1))) as Hr
    by (apply reach_main; lia).
  split; [exact Hr|]. split; [reflexivity|].
  apply (proj1 (landing_overwrites_nothing _ Hr eq_refl) (0, 1)).
  - apply list_elem_of_here.
  - discriminate.
Defined.

Lemma reachable_no_full_row (g : GameState) :
  reachable g -> full_rows (board g) = O.
Proof.
  induction 1 as [rnd1 rnd2 tid H1 H2 | e g Hg IH He]; [reflexivity|].
  destruct e as [rnd tid | | event | rnd tid]; cbn [handle random_ok] in *.
  - reflexivity.
  - pose proof (toggle_pause_core g) as [= -> _ _ _ _ _]. exact IH.
  - pose proof (key_press_core event g) as [= -> _ _ _ _ _]. exact IH.
  - unfold game_loop.
    destruct (paused g || game_over g); [exact IH|].
    destruct (can_move g 0 1); [exact IH|].
    assert (full_rows (board (st (clear_lines tid (land_piece g)))) = O)
      as Hf.
    { destruct (game_inv_land_piece g (reachable_inv g Hg))
        as (Hb & Hc & _).
      destruct (clear_lines_rows tid _ Hb Hc) as (_ & -> & _).
      by rewrite full_rows_app, full_rows_zero_rows, full_rows_kept_rows. }
    by destruct (negb _).
Qed.

(** X16.  No reachable state has a full row: every landing is followed by
    [clear_lines] before control returns, and nothing else fills a cell.
    So in a reachable state [clear_lines] changes neither array. *)
Theorem no_full_row_is_reachable (tid : Z) (g : GameState) :
  reachable g ->
  full_rows (board g) = O /\
  (forall y : Z, row_full (board g) y = false) /\
  board (st (clear_lines tid g)) = board g /\
  board_colors (st (clear_lines tid g)) = board_colors g.
Proof.
  intros Hr. pose proof (reachable_no_full_row g Hr) as Hf.
  destruct (reachable_inv g Hr) as (Hb & Hc & _).
  split; [done|]. split.
  - intros y. unfold row_full, row_at.
    destruct (board g !! Z.to_nat y) as [r|] eqn:Hrow; [|done].
    cbn [default]. destruct (row_is_full r) eqn:Hfull; [|done].
    exfalso. apply list_elem_of_lookup_2 in Hrow.
    assert (r ∈ filter (fun r => row_is_full r = true) (board g)) as Hin
      by (by apply list_elem_of_filter).
    unfold full_rows in Hf. apply length_zero_iff_nil in Hf.
    rewrite Hf in Hin. by apply not_elem_of_nil in Hin.
  - by destruct (clear_lines_keeps_arrays tid g Hb Hc Hf) as (_ & ? & ?).
Qed.

Lemma no_full_row_is_reachable_witness :
  reachable swept_game /\
  full_rows (board (land_piece ledge_game)) = 2%nat /\
  occupied (board swept_game) = 4%nat /\
  full_rows (board swept_game) = O /\
  board (st (clear_lines 3 swept_game)) = board swept_game.
Proof.
  pose proof swept_game_reachable as Hr.
  destruct (no_full_row_is_reachable 3 _ Hr) as (Hf & _ & Hb & _).
  split; [exact Hr|]. do 2 (split; [reflexivity|]).
  split; [exact Hf | exact Hb].
Defined.

(** * Runs from [main] *)

(** ** The callbacks at the top level, score apart *)

(** At level [MAX_LEVEL] the level test of [clear_lines] fails whatever the
    score, so no callback but [start_new_game] looks at the score: a
    callback acts on a state as on its blanked version, and adds to the
    score what it adds to 0. *)

Lemma same_game_eq (g g' : GameState) :
  unscored g = unscored g' -> score g = score g' ->
  score_text g = score_text g' -> g = g'.
Proof.
  destruct g, g'. cbn. intros [= -> -> -> -> -> -> -> -> -> -> -> ->] -> ->.
  reflexivity.
Qed.

Lemma int_add_0_r (a : Z) : is_int a -> int_add a 0 = a.
Proof. intros Ha. unfold int_add. rewrite Z.add_0_r. by apply wrap_small. Qed.

Lemma int_add_int_add_0 (a p : Z) :
  int_add a (int_add 0 (wrap p)) = int_add a (wrap p).
Proof.
  unfold int_add. rewrite Z.add_0_l.
  by rewrite (wrap_small (wrap p)) by apply wrap_is_int.
Qed.

Lemma int_add_assoc (a b c : Z) :
  int_add (int_add a b) c = int_add a (int_add b c).
Proof.
  unfold int_add. rewrite wrap_add_l, (Z.add_comm a (wrap _)), wrap_add_l.
  f_equal. lia.
Qed.

Lemma is_int_int_add (a b : Z) : is_int (int_add a b).
Proof. apply wrap_is_int. Qed.

Lemma can_move_unscored (g : GameState) (dx dy : Z) :
  can_move (unscored g) dx dy = can_move g dx dy.
Proof. by apply can_move_ext. Qed.

Lemma land_piece_unscored (g : GameState) :
  land_piece (unscored g) = unscored (land_piece g).
Proof. by destruct g. Qed.

Lemma new_piece_unscored (rnd : Z) (g : GameState) :
  st (new_piece rnd (unscored g)) = unscored (st (new_piece rnd g)).
Proof. by destruct g. Qed.

Lemma key_action_unscored (k : Key) (g : GameState) :
  unscored (key_action k g) = key_action k (unscored g) /\
  score (key_action k g) = score g /\
  score_text (key_action k g) = score_text g /\
  level (key_action k g) = level g.
Proof.
  unfold key_action. destruct k; try done.
  - rewrite can_move_unscored. by destruct (can_move g (-1) 0).
  - rewrite can_move_unscored. by destruct (can_move g 1 0).
  - rewrite can_move_unscored. by destruct (can_move g 0 1).
  - cbv zeta.
    rewrite (can_move_ext
               (set_current_piece (map rotate_block (current_piece g)) g)
               (set_current_piece
                  (map rotate_block (current_piece (unscored g)))
                  (unscored g))) by reflexivity.
    by destruct (can_move _ 0 0).
Qed.

Lemma key_press_unscored (event : option Key) (g : GameState) :
  unscored (st (key_press event g)) = st (key_press event (unscored g)) /\
  score (st (key_press event g)) = score g /\
  score_text (st (key_press event g)) = score_text g /\
  level (st (key_press event g)) = level g.
Proof.
  unfold key_press. destruct event as [k|]; [|done].
  change (game_over (unscored g)) with (game_over g).
  destruct (game_over g) eqn:Hg; [done|].
  assert (k = GDK_KEY_p \/ k <> GDK_KEY_p) as [->|Hk]
    by (destruct k; (by left) || (by right)).
  - unfold toggle_pause. change (game_over (unscored g)) with (game_over g).
    rewrite Hg. cbn [st paused set_paused unscored set_score set_score_text].
    destruct (paused g); cbn; done.
  - assert (match k with GDK_KEY_p => toggle_pause g | _ => mkOut tt g [] end
            = mkOut tt g []) as -> by (by destruct k).
    assert (match k with GDK_KEY_p => toggle_pause (unscored g)
                       | _ => mkOut tt (unscored g) [] end
            = mkOut tt (unscored g) []) as -> by (by destruct k).
    cbn [st]. change (paused (unscored g)) with (paused g).
    destruct (paused g); [done|]. cbn [st]. apply key_action_unscored.
Qed.

(** [clear_lines] at the top level: the scan, the sum and the label. *)
Lemma clear_lines_top_level (tid : Z) (g : GameState) :
  level g = MAX_LEVEL ->
  st (clear_lines tid g)
  = set_score_text (score_line (score_sum g) MAX_LEVEL)
      (set_score (score_sum g)
         (set_boards (board (st (clear_lines tid g)))
                     (board_colors (st (clear_lines tid g))) g)).
Proof.
  intros Hl. rewrite clear_lines_eq.
  destruct (clear_scan _ _ _ _) as [[lines b] c].
  rewrite Hl, Z.ltb_irrefl, andb_false_r. reflexivity.
Qed.

Lemma clear_lines_unscored (tid : Z) (g : GameState) :
  level g = MAX_LEVEL ->
  unscored (st (clear_lines tid g))
  = unscored (st (clear_lines tid (unscored g))) /\
  score (st (clear_lines tid g))
  = int_add (score g) (score (st (clear_lines tid (unscored g)))) /\
  labelled (st (clear_lines tid g)) /\
  level (st (clear_lines tid g)) = MAX_LEVEL.
Proof.
  intros Hl.
  assert (level (unscored g) = MAX_LEVEL) as Hl' by exact Hl.
  destruct (clear_lines_boards tid g) as [Eb Ec].
  destruct (clear_lines_boards tid (unscored g)) as [Eb' Ec'].
  change (board (unscored g)) with (board g) in Eb', Ec'.
  change (board_colors (unscored g)) with (board_colors g) in Eb', Ec'.
  rewrite (clear_lines_top_level tid g Hl).
  rewrite (clear_lines_top_level tid (unscored g) Hl').
  rewrite Eb, Ec, Eb', Ec'.
  split; [reflexivity|]. split; [|split; [|exact Hl]].
  - cbn [score set_score set_score_text]. unfold score_sum.
    change (lines_cleared (unscored g)) with (lines_cleared g).
    change (level (unscored g)) with (level g).
    change (score (unscored g)) with 0.
    unfold int_mul at 1 3. by rewrite int_add_int_add_0.
  - unfold labelled. cbn. by rewrite Hl.
Qed.

Lemma game_loop_unscored (rnd tid : Z) (g : GameState) :
  level g = MAX_LEVEL -> is_int (score g) ->
  unscored (st (game_loop rnd tid g))
  = unscored (st (game_loop rnd tid (unscored g))) /\
  score (st (game_loop rnd tid g))
  = int_add (score g) (score (st (game_loop rnd tid (unscored g)))) /\
  (labelled g -> labelled (st (game_loop rnd tid g))) /\
  level (st (game_loop rnd tid g)) = MAX_LEVEL.
Proof.
  intros Hl Hs. unfold game_loop.
  change (paused (unscored g)) with (paused g).
  change (game_over (unscored g)) with (game_over g).
  rewrite can_move_unscored.
  destruct (paused g || game_over g);
    [cbn [st]; by rewrite int_add_0_r|].
  destruct (can_move g 0 1);
    [cbn [st]; split; [done|]; split; [|done]; cbn; by rewrite int_add_0_r|].
  rewrite land_piece_unscored.
  destruct (clear_lines_unscored tid (land_piece g) Hl)
    as (Hu & Hsc & Hlab & Hlv).
  set (x := st (clear_lines tid (land_piece g))) in *.
  set (x' := st (clear_lines tid (unscored (land_piece g)))) in *.
  clearbody x x'.
  assert (unscored (st (new_piece rnd x)) = unscored (st (new_piece rnd x')))
    as Hn by (by rewrite <- !new_piece_unscored, Hu).
  assert (can_move (st (new_piece rnd x)) 0 0
          = can_move (st (new_piece rnd x')) 0 0) as Hc.
  { rewrite <- (can_move_unscored (st (new_piece rnd x))), Hn.
    apply can_move_unscored. }
  rewrite Hc. clear Hc Hn.
  change (score (land_piece g)) with (score g) in Hsc.
  destruct (negb (can_move (st (new_piece rnd x')) 0 0));
    destruct x as [b c cx cy cp ct nt sc lv sp tx go pa ti],
             x' as [b' c' cx' cy' cp' ct' nt' sc' lv' sp' tx' go' pa' ti'];
    unfold labelled in *;
    cbn [unscored set_score set_score_text score score_text level] in Hu,
      Hsc, Hlab, Hlv;
    injection Hu as -> -> -> -> -> -> -> -> -> -> -> ->;
    subst sc tx lv'; repeat split; reflexivity.
Qed.

Lemma handle_unscored (e : Event) (g : GameState) :
  is_new_game e = false -> level g = MAX_LEVEL -> is_int (score g) ->
  unscored (handle e g) = unscored (handle e (unscored g)) /\
  score (handle e g) = int_add (score g) (score (handle e (unscored g))) /\
  (labelled g -> labelled (handle e g)) /\
  level (handle e g) = MAX_LEVEL.
Proof.
  intros He Hl Hs. destruct e as [rnd tid | | event | rnd tid];
    cbn [handle]; [discriminate He | | |by apply game_loop_unscored].
  - unfold toggle_pause. change (game_over (unscored g)) with (game_over g).
    destruct (game_over g); cbn [st]; (split; [done|]);
      (split; [cbn; by rewrite int_add_0_r|by split]).
  - destruct (key_press_unscored event g) as (Hu & Hsc & Htx & Hlv).
    destruct (key_press_unscored event (unscored g))
      as (Hu' & Hsc' & _ & _).
    change (unscored (unscored g)) with (unscored g) in Hu'.
    rewrite Hsc', Hsc, Hlv. cbn [score unscored set_score set_score_text].
    rewrite int_add_0_r by done. split; [by rewrite Hu, Hu'|].
    split; [done|].
    split; [|done]. unfold labelled. by rewrite Htx, Hsc, Hlv.
Qed.

Lemma run_unscored (es : list Event) (g : GameState) :
  forallb (fun e => negb (is_new_game e)) es = true ->
  level g = MAX_LEVEL -> is_int (score g) ->
  unscored (run es g) = unscored (run es (unscored g)) /\
  score (run es g) = int_add (score g) (score (run es (unscored g))) /\
  (labelled g -> labelled (run es g)) /\
  level (run es g) = MAX_LEVEL.
Proof.
  revert g. induction es as [|e es IH]; intros g Hes Hl Hs.
  { cbn. by rewrite int_add_0_r. }
  cbn [forallb] in Hes. apply andb_true_iff in Hes as [He Hes].
  apply negb_true_iff in He.
  change (run (e :: es) g) with (run es (handle e g)).
  change (run (e :: es) (unscored g)) with (run es (handle e (unscored g))).
  destruct (handle_unscored e g He Hl Hs) as (Hu & Hsc & Hlab & Hlv).
  assert (is_int (score (handle e g))) as Hs1
    by (rewrite Hsc; apply is_int_int_add).
  destruct (handle_unscored e (unscored g) He Hl) as (_ & Hsc0 & _ & Hlv0);
    [by vm_compute|].
  assert (is_int (score (handle e (unscored g)))) as Hs0
    by (rewrite Hsc0; apply is_int_int_add).
  destruct (IH (handle e g) Hes Hlv Hs1) as (Hu1 & Hsc1 & Hlab1 & Hlv1).
  destruct (IH (handle e (unscored g)) Hes Hlv0 Hs0) as (Hu2 & Hsc2 & _ & _).
  split; [|split; [|split; [tauto|done]]].
  - by rewrite Hu1, Hu, <- Hu2.
  - rewrite Hsc1, Hsc2, Hsc, Hu. apply int_add_assoc.
Qed.

(** ** Rounds at the top level *)

(** One round of five squares at level 10 leaves the state it started
    from, with 2000 points more. *)
Lemma lap_game_run (s : Z) :
  is_int s ->
  run (square_rows 11) (lap_game s) = lap_game (int_add s 2000).
Proof.
  intros Hs.
  destruct (run_unscored (square_rows 11) (lap_game s))
    as (Hu & Hsc & Hlab & Hlv);
    [vm_compute; reflexivity | reflexivity | exact Hs |].
  change (unscored (lap_game s)) with (unscored top_game) in Hu, Hsc.
  change (score (lap_game s)) with s in Hsc.
  assert (run (square_rows 11) (unscored top_game)
          = set_score 2000 (set_score_text (score_line 2000 10) top_game))
    as E by (vm_compute; reflexivity).
  rewrite E in Hu, Hsc. apply same_game_eq.
  - by rewrite Hu.
  - by rewrite Hsc.
  - rewrite Hlab by reflexivity. by rewrite Hsc, Hlv.
Qed.

(** [climb] and any number of further rounds are a run from [main]. *)
Lemma lap_game_reachable (n : Z) :
  0 <= n -> reachable (lap_game (wrap (48200 + 2000 * n))).
Proof.
  revert n. apply natlike_ind.
  - replace (lap_game (wrap (48200 + 2000 * 0)))
      with (run climb (st (main_setup 0 0 1))) by (vm_compute; reflexivity).
    apply reachable_run; [vm_compute; reflexivity|]. apply reach_main; lia.
  - intros n Hn IH.
    replace (wrap (48200 + 2000 * Z.succ n))
      with (int_add (wrap (48200 + 2000 * n)) 2000).
    + rewrite <- lap_game_run by apply wrap_is_int.
      apply reachable_run; [vm_compute; reflexivity | exact IH].
    + unfold int_add. rewrite wrap_add_l. f_equal. lia.
Qed.

Lemma overflow_game_reachable : reachable overflow_game.
Proof.
  replace overflow_game
    with (run (four_squares 11) (lap_game (wrap (48200 + 2000 * 1073717))))
    by (vm_compute; reflexivity).
  apply reachable_run; [vm_compute; reflexivity|].
  by apply lap_game_reachable.
Qed.

(** ** C2: the score update *)

(** C2.  The score update does not saturate, and the score is not monotone
    along a run.  [overflow_game] is reached from [main] by [climb],
    1073717 rounds at level 10 and four squares of one more.  There the
    game is running at level 10 with score 2147482200 and the square
    cannot move down; the tick lands it, two rows are full, and the sum
    2147482200 + 2 * 100 * 10 wraps around: [clear_lines], and so the
    tick, leaves the score -2147483096, which is neither [INT_MAX] (the
    saturated sum) nor at least the old score. *)
Theorem clear_lines_score_wraps :
  reachable overflow_game /\
  paused overflow_game = false /\ game_over overflow_game = false /\
  can_move overflow_game 0 1 = false /\
  level overflow_game = 10 /\
  score overflow_game = 2147482200 /\
  lines_cleared (land_piece overflow_game) = 2 /\
  score (st (clear_lines 11 (land_piece overflow_game))) = (-2147483096) /\
  score (handle (Tick 0 11) overflow_game) = (-2147483096) /\
  score (handle (Tick 0 11) overflow_game)
    <> Z.min (score overflow_game + 2 * 100 * level overflow_game) INT_MAX /\
  score (handle (Tick 0 11) overflow_game) < score overflow_game.
Proof.
  split; [exact overflow_game_reachable|].
  vm_compute. repeat split; congruence.
Qed.

(** ** The game and its timers *)

Lemma game_dispatch (src : Z) (e : Event) (w : Loop) :
  game (dispatch src e w) = handle e (game w).
Proof. by destruct e. Qed.

Lemma game_run_loop (src : Z) (es : list Event) (w : Loop) :
  game (run_loop src es w) = run es (game w).
Proof.
  revert w. induction es as [|e es IH]; intros w; [reflexivity|].
  change (run_loop src (e :: es) w) with (run_loop src es (dispatch src e w)).
  change (run (e :: es) (game w)) with (run es (handle e (game w))).
  by rewrite IH, game_dispatch.
Qed.

(** [endgame_run] from [main]: timer 1, attached by [main], is the only
    one all along. *)
Lemma endgame_run_loop :
  run_loop 1 endgame_run (main_loop 0 0 1) = mkLoop endgame_game [1].
Proof. vm_compute. reflexivity. Qed.

Lemma endgame_game_reachable : reachable endgame_game.
Proof.
  change endgame_game with (game (mkLoop endgame_game [1])).
  rewrite <- endgame_run_loop, game_run_loop.
  apply reachable_run; [vm_compute; reflexivity|]. apply reach_main; lia.
Qed.

(** ** C3: the tick that ends the game *)

(** C3.  The tick that ends the game does not always stop the clock.
    [endgame_game] is reached from [main] by [endgame_run], with timer 1
    the only timer.  The game is running and the line piece cannot move
    down, so the tick lands it in column 3, rows 16 to 19; rows 18 and 19
    are full and are cleared; the score goes from 4800 to 5000 and the
    level from 1 to 2, for which [clear_lines] removes timer 1 and attaches
    a new one, timer 2, at 250 ms; the Z piece is spawned and does not fit,
    so the tick sets [game_over] and returns [FALSE].  That value removes
    the source that fired, timer 1, which is gone already: timer 2 is
    still attached when the game is over. *)
Theorem game_over_tick_leaves_timer :
  run_loop 1 endgame_run (main_loop 0 0 1) = mkLoop endgame_game [1] /\
  reachable endgame_game /\
  paused endgame_game = false /\ game_over endgame_game = false /\
  can_move endgame_game 0 1 = false /\
  landing_cells endgame_game = [(3, 16); (3, 17); (3, 18); (3, 19)] /\
  lines_cleared (land_piece endgame_game) = 2 /\
  (score endgame_game, level endgame_game) = (4800, 1) /\
  (score over_game, level over_game, game_speed over_game) = (5000, 2, 250) /\
  (current_type over_game, next_type over_game) = (2, 0) /\
  can_move (st (new_piece 0 (st (clear_lines 2 (land_piece endgame_game)))))
    0 0 = false /\
  game_loop 0 2 endgame_game
  = mkOut false over_game
      [ gtk_label_set_text score_label "Score: 5000  Level: 1";
        g_source_remove 1; g_timeout_add 250;
        gtk_widget_queue_draw preview_area;
        gtk_widget_queue_draw drawing_area ] /\
  game_over over_game = true /\
  dispatch 1 (Tick 0 2) (mkLoop endgame_game [1]) = mkLoop over_game [2] /\
  timers (dispatch 1 (Tick 0 2) (mkLoop endgame_game [1])) <> [].
Proof.
  split; [exact endgame_run_loop|]. split; [exact endgame_game_reachable|].
  vm_compute. repeat split; (reflexivity || discriminate).
Qed.

(** ** C7: the tick after the game is over *)

(** C7.  A tick when the game is over does not report it.  [over_game] is
    the state the last tick of the run above leaves: the game is over and
    timer 2 is attached.  The tick that ended the game returned [FALSE];
    the next tick, fired by timer 2, changes nothing and returns [TRUE],
    as a tick does while the game is paused, so timer 2 stays attached;
    after [start_new_game], which attaches timer 3 and removes none, two
    timers drive the new game. *)
Theorem tick_after_game_over_keeps_timer :
  reachable over_game /\ game_over over_game = true /\
  dispatch 1 (Tick 0 2) (mkLoop endgame_game [1]) = mkLoop over_game [2] /\
  ret (game_loop 0 2 endgame_game) = false /\
  game_loop 0 3 over_game = mkOut true over_game [] /\
  game_loop 0 3 (set_paused true endgame_game)
  = mkOut true (set_paused true endgame_game) [] /\
  key_press (Some GDK_KEY_Left) over_game = mkOut true over_game [] /\
  key_press (Some GDK_KEY_Up) over_game = mkOut true over_game [] /\
  dispatch 2 (Tick 0 3) (mkLoop over_game [2]) = mkLoop over_game [2] /\
  timers (dispatch 2 (NewGame 0 3) (mkLoop over_game [2])) = [2; 3].
Proof.
  split.
  { apply reach_step; [exact endgame_game_reachable|]. cbn. lia. }
  vm_compute. repeat split; reflexivity.
Qed.
